(** * Feature selection of map_thicket_agc: a shallow embedding

    The development follows [map_thicket_agc/feature_selection.py]:
    [score_model], [ranking], [forward_selection] and [fcr].

    Modelling conventions.
    - numpy [float64] values are real numbers ([R]); NaN, overflow and
      rounding are outside the model.  The float [-inf] that initialises
      [best_score] is kept as a separate constructor.
    - a pandas [DataFrame] is its row count together with the ordered list
      of named columns; a [Series] / 1-d array is a list.
    - Python exceptions are a result monad.  Library calls
      (scikit-learn, numpy, pandas, dcor) are written out as functions
      following the behaviour of the library on the path the source takes.
    - an estimator is a total function (fit on the training rows, predict
      one row).  Logging is not modelled, except where a logged expression
      can raise. *)

From Stdlib Require Import String Reals Lra Lia ZArith Bool Arith List.
From Stdlib Require Import Permutation Sorted.
Import ListNotations.
Open Scope R_scope.

(** ** Exceptions *)

(** The Python exception classes reached by the modelled paths. *)
Inductive pyclass := ValueError | IndexError | KeyError.

(** One constructor per raising site, so that a failure names its cause. *)
Inductive exn :=
| InconsistentSamples  (* sklearn check_consistent_length: X and y differ in length *)
| TooFewSplits         (* sklearn KFold: n_splits must be 2 or more *)
| TooManySplits        (* sklearn KFold.split: n_splits greater than the number of samples *)
| EmptyArray           (* sklearn check_array: 0 samples or 0 features *)
| EmptyReduction       (* numpy argmax / max of an empty array *)
| LengthMismatch       (* pandas: length of values does not match length of index *)
| IndexOutOfBounds     (* pandas Index.__getitem__: index 0 of an empty Index *)
| MissingKey.          (* dict lookup of an absent key *)

Definition class_of (e : exn) : pyclass :=
  match e with
  | IndexOutOfBounds => IndexError
  | MissingKey => KeyError
  | _ => ValueError
  end.

Inductive result (A : Type) : Type :=
| Ok (a : A)
| Raise (e : exn).
Arguments Ok {A} a.
Arguments Raise {A} e.

Definition bind {A B : Type} (c : result A) (k : A -> result B) : result B :=
  match c with
  | Ok a => k a
  | Raise e => Raise e
  end.

Declare Scope result_scope.
Delimit Scope result_scope with result.
Notation "x <- c ;; k" := (bind c (fun x => k))
  (at level 61, c at next level, right associativity) : result_scope.
Notation "' p <- c ;; k" := (bind c (fun x => let p := x in k))
  (at level 61, p pattern, c at next level, right associativity) : result_scope.
Open Scope result_scope.

(** ** numpy / sklearn.metrics helpers *)

Definition np_sum (l : list R) : R := fold_right Rplus 0 l.

Definition np_mean (l : list R) : R := np_sum l / INR (length l).

(** [a[idx]]: fancy indexing of a list by a list of positions. *)
Definition take {A : Type} (d : A) (l : list A) (idx : list nat) : list A :=
  map (fun i => nth i l d) idx.

(** [(meas - pred) ** 2], elementwise. *)
Fixpoint sq_errors (meas pred : list R) : list R :=
  match meas, pred with
  | m :: ms, p :: ps => Rsqr (m - p) :: sq_errors ms ps
  | _, _ => []
  end.

(** [metrics.mean_squared_error(meas, pred)] *)
Definition mean_squared_error (meas pred : list R) : R :=
  np_mean (sq_errors meas pred).

(** The scorer of lines 256 and 259:
    [lambda meas, pred: -np.sqrt(metrics.mean_squared_error(meas, pred))]. *)
Definition neg_rmse (meas pred : list R) : R :=
  - sqrt (mean_squared_error meas pred).

(** [metrics.r2_score(y_true, y_pred)] for a single output: [1 - SSres/SStot],
    with sklearn's convention when [SStot] is zero. *)
Definition r2_score (y_true y_pred : list R) : R :=
  let numerator := np_sum (sq_errors y_true y_pred) in
  let denominator := np_sum (map (fun v => Rsqr (v - np_mean y_true)) y_true) in
  if Req_EM_T denominator 0
  then (if Req_EM_T numerator 0 then 1 else 0)
  else 1 - numerator / denominator.

(** ** Data model *)

Definition Column : Type := (string * list R)%type.

Record DataFrame := mkDataFrame {
  index : nat;                 (* len(df.index): the number of rows *)
  columns : list Column        (* named columns, in insertion order *)
}.

(** [df.shape[1]] *)
Definition shape1 (df : DataFrame) : nat := length (columns df).

Definition column_keys (df : DataFrame) : list string := map fst (columns df).

(** Every column of a frame has one value per row. *)
Definition well_formed (df : DataFrame) : Prop :=
  Forall (fun c : Column => length (snd c) = index df) (columns df).

(** Row [i] of the frame as the estimator sees it. *)
Definition row (df : DataFrame) (i : nat) : list R :=
  map (fun c : Column => nth i (snd c) 0) (columns df).

(** [df.to_numpy()]: the rows, in index order. *)
Definition to_numpy (df : DataFrame) : list (list R) :=
  map (row df) (seq 0 (index df)).

(** A regression estimator: cloned, fitted on the training rows and targets,
    then asked for the prediction at one row. *)
Record Estimator := mkEstimator {
  fit_predict : list (list R) -> list R -> list R -> R
}.

(** A user score function [score_fn(y_true, y_pred)]. *)
Definition ScoreFn : Type := list R -> list R -> R.

(** The dict returned by [cross_validate], with the key added by
    [score_model].  An absent key is [None]. *)
Record Scores := mkScores {
  test_neg_RMSE : list R;           (* scores['test_-RMSE'], one value per fold *)
  test_user : option (list R);      (* scores['test_user'] *)
  R2_stacked : option R             (* scores['R2_stacked'] *)
}.

(** ** sklearn.model_selection, on the path taken for an integer [cv]
       and a regressor: unshuffled [KFold]. *)

(** [KFold._iter_test_indices]: the first [n mod k] folds get one more row. *)
Definition fold_sizes (n k : nat) : list nat :=
  map (fun i => (n / k + (if i <? n mod k then 1 else 0))%nat) (seq 0 k).

Fixpoint consecutive (start : nat) (sizes : list nat) : list (list nat) :=
  match sizes with
  | [] => []
  | s :: rest => seq start s :: consecutive (start + s) rest
  end.

(** The test index sets, in fold order. *)
Definition kfold_tests (n k : nat) : list (list nat) :=
  consecutive 0 (fold_sizes n k).

Definition mem_nat (i : nat) (l : list nat) : bool := existsb (Nat.eqb i) l.

(** The training indices of a fold: all rows not held out. *)
Definition train_of (n : nat) (test : list nat) : list nat :=
  filter (fun i => negb (mem_nat i test)) (seq 0 n).

(** [indexable(X, y)] then [check_cv(cv)] then [cv.split(X)]. *)
Definition check_split (n_X n_y : nat) (cv : Z) : result (list (list nat)) :=
  if negb (n_X =? n_y)%nat then Raise InconsistentSamples
  else if (cv <? 2)%Z then Raise TooFewSplits
  else if (Z.of_nat n_X <? cv)%Z then Raise TooManySplits
  else Ok (kfold_tests n_X (Z.to_nat cv)).

(** Fit on the training rows of a fold, predict its held-out rows. *)
Definition fold_predict (model : Estimator) (X : list (list R)) (y : list R)
    (test : list nat) : list R :=
  let train := train_of (length X) test in
  map (fun i => fit_predict model (take [] X train) (take 0 y train) (nth i X []))
      test.

(** [cross_validate(model, feat_df, y, scoring=scoring, cv=cv)] with the
    scoring dict built on lines 254-259. *)
Definition cross_validate (model : Estimator) (feat_df : DataFrame) (y : list R)
    (score_fn : option ScoreFn) (cv : Z) : result Scores :=
  folds <- check_split (index feat_df) (length y) cv ;;
  let X := to_numpy feat_df in
  let per_fold (scorer : ScoreFn) :=
    map (fun test => scorer (take 0 y test) (fold_predict model X y test)) folds in
  Ok {| test_neg_RMSE := per_fold neg_rmse;
        test_user := option_map per_fold score_fn;
        R2_stacked := None |}.

(** [cross_val_predict(model, feat_df, y, cv=cv)]: the held-out predictions,
    put back in row order (the folds of [KFold] are consecutive). *)
Definition cross_val_predict (model : Estimator) (feat_df : DataFrame) (y : list R)
    (cv : Z) : result (list R) :=
  folds <- check_split (index feat_df) (length y) cv ;;
  Ok (concat (map (fold_predict model (to_numpy feat_df) y) folds)).

(** ** score_model (lines 221-276) *)

Definition score_model (feat_df : DataFrame) (y : list R) (model : Estimator)
    (score_fn : option ScoreFn) (cv : option Z) (find_predicted : bool)
  : result (Scores * option (list R)) :=
  let cv := match cv with
            | None => Z.of_nat (length y)   (* Leave one out *)
            | Some c => c
            end in
  scores <- cross_validate model feat_df y score_fn cv ;;
  if find_predicted then
    predicted <- cross_val_predict model feat_df y cv ;;
    Ok ({| test_neg_RMSE := test_neg_RMSE scores;
           test_user := test_user scores;
           R2_stacked := Some (r2_score y predicted) |}, Some predicted)
  else Ok (scores, None).

(** The aggregate of lines 148-151 and 208-211:
    [-np.sqrt((scores['test_-RMSE'] ** 2).mean())], or the mean of the user
    score when a score function is given. *)
Definition cv_score (scores : Scores) (score_fn : option ScoreFn) : result R :=
  match score_fn with
  | None => Ok (- sqrt (np_mean (map Rsqr (test_neg_RMSE scores))))
  | Some _ =>
      match test_user scores with
      | Some u => Ok (np_mean u)
      | None => Raise MissingKey
      end
  end.

(** ** pandas operations used by the selection loops *)

Definition has_key (key : string) (cols : list Column) : bool :=
  existsb (fun c : Column => String.eqb (fst c) key) cols.

(** [pd.concat((df, feat_vec), axis=1, ignore_index=False)] *)
Definition concat_column (df : DataFrame) (c : Column) : DataFrame :=
  {| index := index df; columns := columns df ++ [c] |}.

(** [pd.DataFrame(feat_vec)]: the one-column frame of a series. *)
Definition frame_of (n : nat) (c : Column) : DataFrame :=
  {| index := n; columns := [c] |}.

(** [df[key] = values]: the values must fit the index; an existing column
    is overwritten in place, a new one is appended. *)
Definition set_column (df : DataFrame) (key : string) (values : list R)
  : result DataFrame :=
  if negb (length values =? index df)%nat then Raise LengthMismatch
  else if has_key key (columns df)
  then Ok {| index := index df;
             columns := map (fun c : Column =>
                               if String.eqb (fst c) key then (key, values) else c)
                            (columns df) |}
  else Ok (concat_column df (key, values)).

(** The columns not labelled [key]. *)
Definition drop_key (key : string) (cols : list Column) : list Column :=
  filter (fun c : Column => negb (String.eqb (fst c) key)) cols.

(** [df.pop(key)]: drops the column(s) labelled [key]. *)
Definition pop (df : DataFrame) (key : string) : result DataFrame :=
  if has_key key (columns df)
  then Ok {| index := index df; columns := drop_key key (columns df) |}
  else Raise MissingKey.

(** [df.columns[0]] *)
Definition first_key (df : DataFrame) : result string :=
  match columns df with
  | [] => Raise IndexOutOfBounds
  | c :: _ => Ok (fst c)
  end.

(** ** Extended floats: the value of [best_score] *)

Inductive xfloat := NegInf | Fin (r : R).

(** [score > best_score] on line 153. *)
Definition score_gt (score : R) (best_score : xfloat) : bool :=
  match best_score with
  | NegInf => true
  | Fin b => if Rgt_dec score b then true else false
  end.

Definition xgt (a b : xfloat) : bool :=
  match a with
  | NegInf => false
  | Fin r => score_gt r b
  end.

(** [np.argmax(a)]: the first position of the maximum; raises on an empty
    array. *)
Fixpoint argmax_from (i best_i : nat) (best : xfloat) (a : list xfloat) : nat :=
  match a with
  | [] => best_i
  | v :: rest => if xgt v best then argmax_from (S i) i v rest
                 else argmax_from (S i) best_i best rest
  end.

Definition np_argmax (a : list xfloat) : result nat :=
  match a with
  | [] => Raise EmptyReduction
  | v :: rest => Ok (argmax_from 1 0 v rest)
  end.

(** [a.max()] of a float array; raises on an empty array. *)
Definition np_max (a : list R) : result R :=
  match a with
  | [] => Raise EmptyReduction
  | v :: rest => Ok (fold_left Rmax rest v)
  end.

(** ** forward_selection (lines 100-170) and ranking (lines 173-218) *)

(** The three variables updated by the inner loop. *)
Record Best := mkBest {
  best_score : xfloat;
  best_feat : list R;
  best_key : string
}.

(** Marks the exhaustion of the loop bound of [select_loop]; it is not a
    Python exception and is never produced by [forward_selection]. *)
Inductive outcome (A : Type) : Type :=
| Done (r : result A)
| OutOfFuel.
Arguments Done {A} r.
Arguments OutOfFuel {A}.

Section Selection.

Variable y : list R.
Variable model : Estimator.
Variable score_fn : option ScoreFn.
Variable cv : option Z.

(** Lines 145-151: the cross-validated score of one trial table. *)
Definition trial_score (test_feats_df : DataFrame) : result R :=
  '(scores, predicted) <- score_model test_feats_df y model score_fn cv false ;;
  cv_score scores score_fn.

(** The [for feat_key, feat_vec in available_feats_df.iteritems()] loop,
    lines 144-156. *)
Fixpoint scan (selected_feats_df : DataFrame) (items : list Column) (b : Best)
  : result Best :=
  match items with
  | [] => Ok b
  | (feat_key, feat_vec) :: rest =>
      let test_feats_df := concat_column selected_feats_df (feat_key, feat_vec) in
      score <- trial_score test_feats_df ;;
      scan selected_feats_df rest
           (if score_gt score (best_score b)
            then {| best_score := Fin score; best_feat := feat_vec; best_key := feat_key |}
            else b)
  end.

(** One pass of the body of the [while] loop, lines 141-159. *)
Definition select_step (selected_feats_df : DataFrame) (selected_scores : list xfloat)
    (available_feats_df : DataFrame)
  : result (DataFrame * list xfloat * DataFrame) :=
  key0 <- first_key available_feats_df ;;
  b <- scan selected_feats_df (columns available_feats_df)
            {| best_score := NegInf; best_feat := []; best_key := key0 |} ;;
  selected_feats_df' <- set_column selected_feats_df (best_key b) (best_feat b) ;;
  available_feats_df' <- pop available_feats_df (best_key b) ;;
  Ok (selected_feats_df', selected_scores ++ [best_score b], available_feats_df').

(** [while selected_feats_df.shape[1] < max_num_feats], lines 140-161. *)
Fixpoint select_loop (fuel : nat) (max_num_feats : Z) (selected_feats_df : DataFrame)
    (selected_scores : list xfloat) (available_feats_df : DataFrame)
  : outcome (DataFrame * list xfloat) :=
  if (Z.of_nat (shape1 selected_feats_df) <? max_num_feats)%Z then
    match fuel with
    | O => OutOfFuel
    | S fuel' =>
        match select_step selected_feats_df selected_scores available_feats_df with
        | Raise e => Done (Raise e)
        | Ok (sel, scores, avail) => select_loop fuel' max_num_feats sel scores avail
        end
    end
  else Done (Ok (selected_feats_df, selected_scores)).

(** [forward_selection], lines 129-170.  The [while] loop is given one pass
    more than there are columns: every pass that does not raise pops a
    column, so the bound is never used up. *)
Definition forward_selection (feat_df : DataFrame) (max_num_feats : Z)
  : outcome (DataFrame * list xfloat) :=
  let max_num_feats :=
    if (max_num_feats =? 0)%Z then Z.of_nat (shape1 feat_df) else max_num_feats in
  let selected_feats_df := {| index := index feat_df; columns := [] |} in
  match select_loop (S (shape1 feat_df)) max_num_feats selected_feats_df [] feat_df with
  | OutOfFuel => OutOfFuel
  | Done r =>
      Done ('(selected_feats_df, selected_scores) <- r ;;
            best_len <- np_argmax selected_scores ;;     (* line 165 *)
            Ok (selected_feats_df, selected_scores))
  end.

(** Lines 201-212: the loop over the columns of [feat_df], each scored as a
    table of its own. *)
Fixpoint ranking_loop (n : nat) (items : list Column) (feat_scores : list R)
  : result (list R) :=
  match items with
  | [] => Ok feat_scores
  | feat :: rest =>
      score <- trial_score (frame_of n feat) ;;
      ranking_loop n rest (feat_scores ++ [score])
  end.

(** [ranking], lines 195-218: the scores, in the order of the loop. *)
Definition ranking (feat_df : DataFrame) : result (list R) :=
  feat_scores <- ranking_loop (index feat_df) (columns feat_df) [] ;;
  best <- np_max feat_scores ;;                          (* line 216 *)
  Ok feat_scores.

End Selection.

(** ** fcr (lines 40-97) *)

(** *** Sorting as numpy does it: the positions, ordered by value *)

Fixpoint insert_by (key : nat -> R) (i : nat) (l : list nat) : list nat :=
  match l with
  | [] => [i]
  | j :: rest => if Rle_dec (key i) (key j) then i :: j :: rest
                 else j :: insert_by key i rest
  end.

(** [np.argsort(a)]: ascending; equal values keep their relative order here
    (numpy leaves that order to the sorting routine). *)
Definition np_argsort (a : list R) : list nat :=
  fold_right (insert_by (fun i => nth i a 0)) [] (seq 0 (length a)).

(** [np.sort(a)] *)
Definition np_sort (a : list R) : list R := take 0 a (np_argsort a).

(** [np.median(a)] over the flattened array. *)
Definition np_median (a : list R) : R :=
  let s := np_sort a in
  let n := length s in
  if Nat.even n
  then (nth (n / 2 - 1) s 0 + nth (n / 2) s 0) / 2
  else nth (n / 2) s 0.

Fixpoint insert_Z (v : Z) (l : list Z) : list Z :=
  match l with
  | [] => [v]
  | w :: rest => if (v <? w)%Z then v :: w :: rest
                 else if (v =? w)%Z then w :: rest
                 else w :: insert_Z v rest
  end.

(** [np.unique(labels)]: the distinct labels, ascending. *)
Definition np_unique (labels : list Z) : list Z := fold_right insert_Z [] labels.

(** [np.nonzero(labels == label)[0]]: the positions carrying [label]. *)
Definition label_positions (labels : list Z) (label : Z) : list nat :=
  filter (fun i => (nth i labels 0 =? label)%Z) (seq 0 (length labels)).

(** [a[:m]] *)
Definition slice_to {A : Type} (m : option Z) (l : list A) : list A :=
  match m with
  | None => l
  | Some m => if (m <? 0)%Z then firstn (Z.to_nat (Z.of_nat (length l) + m)) l
              else firstn (Z.to_nat m) l
  end.

(** [df.iloc[:, idx]]: the columns at the given positions. *)
Fixpoint iloc_columns (cols : list Column) (idx : list nat) : result (list Column) :=
  match idx with
  | [] => Ok []
  | i :: rest =>
      match nth_error cols i with
      | None => Raise IndexOutOfBounds
      | Some c => picked <- iloc_columns cols rest ;; Ok (c :: picked)
      end
  end.

(** *** sklearn.preprocessing.StandardScaler *)

(** Population variance, [np.var]. *)
Definition np_var (l : list R) : R :=
  np_mean (map (fun v => Rsqr (v - np_mean l)) l).

(** The scale of a column; a zero scale is replaced by one
    ([_handle_zeros_in_scale]). *)
Definition scale_of (l : list R) : R :=
  let s := sqrt (np_var l) in
  if Req_EM_T s 0 then 1 else s.

Definition standardize (l : list R) : list R :=
  map (fun v => (v - np_mean l) / scale_of l) l.






(** [StandardScaler().fit_transform(a).T] for an array given by its columns:
    the standardized columns.  [check_array] rejects an array without rows or
    without columns. *)
Definition fit_transform (n_rows : nat) (cols : list (list R)) : result (list (list R)) :=
  match n_rows, cols with
  | O, _ => Raise EmptyArray
  | _, [] => Raise EmptyArray
  | _, _ => Ok (map standardize cols)
  end.

(** *** dcor *)

(** The Euclidean distance between two points. *)
Definition euclidean (u v : list R) : R := sqrt (np_sum (sq_errors u v)).

(** [dcor.distances.pairwise_distances(x)]: the matrix of Euclidean
    distances between the rows of [x]. *)
Definition pairwise_distances (x : list (list R)) : list (list R) :=
  map (fun u => map (euclidean u) x) x.

(** The matrix [|x_i - x_j|] of a sample. *)
Definition abs_diffs (x : list R) : list (list R) :=
  map (fun xi => map (fun xj => Rabs (xi - xj)) x) x.

(** Double centring: subtract the row and column means, add the grand mean. *)
Definition double_centered (a : list (list R)) : list (list R) :=
  let means := map np_mean a in
  let grand := np_mean (concat a) in
  map (fun rm : list R * R =>
         map (fun vm : R * R => fst vm - snd rm - snd vm + grand)
             (combine (fst rm) means))
      (combine a means).

(** The mean of the entrywise products of two matrices. *)
Definition mean_product (a b : list (list R)) : R :=
  np_mean (concat (map (fun rr : list R * list R =>
                          map (fun uv : R * R => fst uv * snd uv)
                              (combine (fst rr) (snd rr)))
                       (combine a b))).

(** [dcor.distance_covariance_sqr(x, y)], the biased estimator. *)
Definition distance_covariance_sqr (x y : list R) : R :=
  mean_product (double_centered (abs_diffs x)) (double_centered (abs_diffs y)).

(** [dcor.rowwise(dcor.distance_covariance_sqr, xs, y)] with the single row
    [y]: one value per row of [xs], each against [y]; the samples must have
    one length. *)
Fixpoint rowwise_dcov (xs : list (list R)) (y : list R) : result (list R) :=
  match xs with
  | [] => Ok []
  | x :: rest =>
      if negb (length x =? length y)%nat then Raise InconsistentSamples
      else dys <- rowwise_dcov rest y ;;
           Ok (distance_covariance_sqr x y :: dys)
  end.

(** *** The clustering and ranking itself *)

(** [d] of line 71, the matrix handed to affinity propagation. *)
Definition similarity (sc_feat_T : list (list R)) : list (list R) :=
  map (map Ropp) (pairwise_distances sc_feat_T).

(** [a[0]] of an index array. *)
Definition first_index (a : list nat) : result nat :=
  match a with
  | [] => Raise IndexOutOfBounds
  | i :: _ => Ok i
  end.

(** The body of the loop over cluster labels, lines 81-90: the selected
    position and the score of one cluster. *)
Definition cluster_pick (sc_feat_T : list (list R)) (sc_y : list R)
    (labels : list Z) (label : Z) : result (nat * R) :=
  let label_idx := label_positions labels label in
  dy <- rowwise_dcov (take [] sc_feat_T label_idx) sc_y ;;
  let rank_label_idx := take 0%nat label_idx (np_argsort (map Ropp dy)) in
  rep <- first_index rank_label_idx ;;
  score <- np_max dy ;;
  Ok (rep, score).

(** The loop of line 79, appending to [selected_feats] and [cluster_scores]. *)
Fixpoint cluster_loop (sc_feat_T : list (list R)) (sc_y : list R) (labels : list Z)
    (todo : list Z) (selected_feats : list nat) (cluster_scores : list R)
  : result (list nat * list R) :=
  match todo with
  | [] => Ok (selected_feats, cluster_scores)
  | label :: rest =>
      '(rep, score) <- cluster_pick sc_feat_T sc_y labels label ;;
      cluster_loop sc_feat_T sc_y labels rest
                   (selected_feats ++ [rep]) (cluster_scores ++ [score])
  end.

(** [AffinityPropagation(..., preference=pref, affinity='precomputed').fit(d)]:
    the clustering is taken as a function from the similarity matrix and the
    preference to the label of each feature ([ap.labels_]). *)
Definition Clustering : Type := list (list R) -> R -> list Z.

Definition fcr (ap : Clustering) (feat_df : DataFrame) (y : list R)
    (max_num_feats : option Z) : result (DataFrame * list R) :=
  sc_feat_T <- fit_transform (index feat_df) (map snd (columns feat_df)) ;;
  sc_y_T <- fit_transform (length y) [y] ;;
  let sc_y := nth 0 sc_y_T [] in
  let d := similarity sc_feat_T in
  let pref := np_median (concat d) in
  let labels := ap d pref in
  '(selected_feats, cluster_scores) <-
      cluster_loop sc_feat_T sc_y labels (np_unique labels) [] [] ;;
  let rank_feat_idx := np_argsort (map Ropp cluster_scores) in
  let selected_feats := take 0%nat selected_feats rank_feat_idx in
  let cluster_scores := take 0 cluster_scores rank_feat_idx in
  picked <- iloc_columns (columns feat_df) (slice_to max_num_feats selected_feats) ;;
  Ok ({| index := index feat_df; columns := picked |},
      slice_to max_num_feats cluster_scores).

(** ** The aggregate score as the specification words it *)

(** The squared held-out errors of every fold, pooled in one list. *)
Definition held_out_sq_errors (model : Estimator) (feat_df : DataFrame) (y : list R)
    (folds : list (list nat)) : list R :=
  concat (map (fun test => sq_errors (take 0 y test)
                                     (fold_predict model (to_numpy feat_df) y test))
              folds).

(** [-sqrt(mean(squared per-row held-out errors across all folds combined))] *)
Definition pooled_neg_rmse (model : Estimator) (feat_df : DataFrame) (y : list R)
    (cv : Z) : result R :=
  folds <- check_split (index feat_df) (length y) cv ;;
  Ok (- sqrt (np_mean (held_out_sq_errors model feat_df y folds))).

(** The mean squared error of each fold, in fold order. *)
Definition fold_mses (model : Estimator) (feat_df : DataFrame) (y : list R)
    (folds : list (list nat)) : list R :=
  map (fun test => mean_squared_error (take 0 y test)
                                      (fold_predict model (to_numpy feat_df) y test))
      folds.

(** ** Vocabulary of the statements *)

(** The fold count in force: leave-one-out when [cv] is [None]. *)
Definition effective_cv (cv : option Z) (y : list R) : Z :=
  match cv with
  | None => Z.of_nat (length y)
  | Some c => c
  end.

(** The inputs on which cross-validation raises nothing: as many rows as
    targets, and a fold count between two and the number of rows. *)
Definition scorable (y : list R) (cv : option Z) (feat_df : DataFrame) : Prop :=
  index feat_df = length y /\
  (2 <= effective_cv cv y <= Z.of_nat (length y))%Z.

(** The error taxonomy of the specification, read on the raising sites. *)
Definition InvalidFoldCount (e : exn) : Prop :=
  e = TooFewSplits \/ e = TooManySplits.

Definition DimensionMismatch (e : exn) : Prop :=
  e = InconsistentSamples.

(** The bound of the [while] loop after the select-all sentinel. *)
Definition effective_max (feat_df : DataFrame) (max_num_feats : Z) : Z :=
  if (max_num_feats =? 0)%Z then Z.of_nat (shape1 feat_df) else max_num_feats.

(** Candidate [c], tried on top of the selected columns, gets a score that
    satisfies [P]. *)
Definition scores_as (y : list R) (model : Estimator) (score_fn : option ScoreFn)
    (cv : option Z) (sel : DataFrame) (P : R -> Prop) (c : Column) : Prop :=
  exists s, trial_score y model score_fn cv (concat_column sel c) = Ok s /\ P s.

(** The states in which the [while] loop of [forward_selection] evaluates
    its body: the initial one, and those a completed pass leaves. *)
Inductive iteration (y : list R) (model : Estimator) (score_fn : option ScoreFn)
    (cv : option Z) (feat_df : DataFrame)
  : DataFrame -> list xfloat -> DataFrame -> Prop :=
| iteration_first :
    iteration y model score_fn cv feat_df
              {| index := index feat_df; columns := [] |} [] feat_df
| iteration_next sel scores avail sel' scores' avail' :
    iteration y model score_fn cv feat_df sel scores avail ->
    select_step y model score_fn cv sel scores avail = Ok (sel', scores', avail') ->
    iteration y model score_fn cv feat_df sel' scores' avail'.

(** What the [while] loop of [forward_selection] maintains: both frames keep
    the rows of the input, the selected names are distinct and gone from the
    available frame, every column comes from the input, and there is one
    score per selected column. *)
Definition loop_invariant (feat_df sel : DataFrame) (scores : list xfloat)
    (avail : DataFrame) : Prop :=
  index sel = index feat_df
  /\ index avail = index feat_df
  /\ NoDup (column_keys sel)
  /\ (forall k, In k (column_keys sel) -> ~ In k (column_keys avail))
  /\ incl (columns sel) (columns feat_df)
  /\ incl (columns avail) (columns feat_df)
  /\ length scores = shape1 sel.

(** Scores in descending order. *)
Definition descending (scores : list R) : Prop := Sorted Rge scores.

(** ** Vocabulary for the statements about [fcr] *)

(** The distance correlation statistic the specification names (dcor's
    [distance_correlation]): the root of the squared distance covariance
    normalised by the two distance variances. *)
Definition distance_correlation_sqr (x y : list R) : R :=
  let vx := distance_covariance_sqr x x in
  let vy := distance_covariance_sqr y y in
  if Req_EM_T (vx * vy) 0 then 0
  else distance_covariance_sqr x y / sqrt (vx * vy).

Definition distance_correlation (x y : list R) : R :=
  sqrt (distance_correlation_sqr x y).

(** Entry [(i, j)] of a matrix given by its rows. *)
Definition entry (m : list (list R)) (i j : nat) : R := nth j (nth i m []) 0.

(** Position [rep] represents the cluster [label] with score [score]: it
    carries that label, [score] is its squared distance covariance with the
    target, and no member of the cluster has a larger one. *)
Definition represents (sc_feat_T : list (list R)) (sc_y : list R) (labels : list Z)
    (label : Z) (rep : nat) (score : R) : Prop :=
  (rep < length labels)%nat
  /\ nth rep labels 0%Z = label
  /\ score = distance_covariance_sqr (nth rep sc_feat_T []) sc_y
  /\ forall j, (j < length labels)%nat -> nth j labels 0%Z = label ->
               distance_covariance_sqr (nth j sc_feat_T []) sc_y <= score.

(** The standardized feature columns, [sc_feat_df.T]. *)
Definition standardized (feat_df : DataFrame) : list (list R) :=
  map standardize (map snd (columns feat_df)).

(** The cluster label of every feature, [ap.labels_]. *)
Definition fcr_labels (ap : Clustering) (feat_df : DataFrame) : list Z :=
  let d := similarity (standardized feat_df) in
  ap d (np_median (concat d)).

(** Truncation to [max_num_feats] when it is given. *)
Definition truncate {A : Type} (max_num_feats : option Z) (l : list A) : list A :=
  match max_num_feats with
  | None => l
  | Some k => firstn (Z.to_nat k) l
  end.

(** A given [max_num_feats] is a count. *)
Definition is_count (max_num_feats : option Z) : Prop :=
  match max_num_feats with
  | None => True
  | Some k => (0 <= k)%Z
  end.

(** A cluster label with its representative position and its score. *)
Definition Pick : Type := (Z * (nat * R))%type.
Definition pick_label (t : Pick) : Z := fst t.
Definition pick_position (t : Pick) : nat := fst (snd t).
Definition pick_score (t : Pick) : R := snd (snd t).

(** ** Concrete estimators, clusterings and tables *)

(** [DummyRegressor(strategy='constant', constant=0.0)] *)
Definition zero_regressor : Estimator :=
  {| fit_predict := fun _ _ _ => 0 |}.

Definition one_feature_frame : DataFrame :=
  {| index := 3; columns := [("a"%string, [1; 2; 3])] |}.

(** Three rows, split by two folds into two rows and one row. *)
Definition y_skew : list R := [0; 0; 3].

(** [a * b], elementwise. *)
Fixpoint products (a b : list R) : list R :=
  match a, b with
  | u :: us, v :: vs => u * v :: products us vs
  | _, _ => []
  end.

(** [LinearRegression()] on a table with a single feature, the case
    [ranking] puts it in: the least-squares line through the training
    points, and a zero slope when the feature does not vary over them (the
    minimum-norm solution). *)
Definition least_squares_line (X : list (list R)) (y : list R) (x : list R) : R :=
  let xs := map (fun r => nth 0 r 0) X in
  let x_mean := np_mean xs in
  let y_mean := np_mean y in
  let dx := map (fun v => v - x_mean) xs in
  let dy := map (fun v => v - y_mean) y in
  let sxx := np_sum (products dx dx) in
  let sxy := np_sum (products dx dy) in
  let coef := if Req_EM_T sxx 0 then 0 else sxy / sxx in
  y_mean + coef * (nth 0 x 0 - x_mean).
Arguments least_squares_line : simpl never.

Definition linear_regression_1d : Estimator :=
  {| fit_predict := least_squares_line |}.

(** Three plots; column [b] is listed before the perfectly fitting [a]. *)
Definition y_line : list R := [1; 2; 3].

Definition unsorted_frame : DataFrame :=
  {| index := 3;
     columns := [("b"%string, [1; 1; 2]); ("a"%string, [1; 2; 3])] |}.

(** The table of the end-to-end scenario of the specification: [C] is a
    constant column. *)
Definition y_abc : list R := [1; 2; 3; 4; 5].

Definition abc_frame : DataFrame :=
  {| index := 5;
     columns := [("A"%string, [1; 2; 3; 4; 5]);
                 ("B"%string, [5; 4; 3; 2; 1]);
                 ("C"%string, [1; 1; 1; 1; 1])] |}.

(** A table with three rows and no column. *)
Definition no_columns : DataFrame := {| index := 3; columns := [] |}.


(** A clustering that puts every feature in a cluster of its own. *)
Definition singletons : Clustering := fun d pref => map Z.of_nat (seq 0 (length d)).

(** Two plots, two features that are already standardized. *)
Definition two_rows_frame : DataFrame :=
  {| index := 2;
     columns := [("p"%string, [-1; 1]); ("q"%string, [1; -1])] |}.

(** ** Vocabulary for further properties of the selection loops *)

(** The table of the first [k] columns of a frame. *)
Definition prefix_frame (k : nat) (df : DataFrame) : DataFrame :=
  {| index := index df; columns := firstn k (columns df) |}.

(** Score [k] of a selection is the cross-validated score of the table of
    its first [k + 1] columns. *)
Definition scores_of_prefixes (y : list R) (model : Estimator)
    (score_fn : option ScoreFn) (cv : option Z) (sel : DataFrame)
    (scores : list xfloat) : Prop :=
  length scores = shape1 sel
  /\ forall k, (k < length scores)%nat ->
       exists s, nth k scores NegInf = Fin s
                 /\ trial_score y model score_fn cv (prefix_frame (S k) sel) = Ok s.

(** The prediction for row [i] under leave-one-out: the estimator is fitted
    on all the other rows. *)
Definition loo_prediction (model : Estimator) (feat_df : DataFrame) (y : list R)
    (i : nat) : R :=
  let X := to_numpy feat_df in
  let train := train_of (length X) [i] in
  fit_predict model (take [] X train) (take 0 y train) (nth i X []).

(** A table in which two columns share a name. *)
Definition twin_frame : DataFrame :=
  {| index := 3;
     columns := [("a"%string, [1; 2; 3]); ("a"%string, [3; 2; 1])] |}.

(** ** fit_agc_model.py: the leave-one-out evaluation of a selection *)

(** The ['RMSE'] entry recorded for an evaluation on line 90,
    [np.abs(scores['test_-RMSE']).mean()/1000.] *)
Definition reported_rmse (scores : Scores) : R :=
  np_mean (map Rabs (test_neg_RMSE scores)) / 1000.

(** * Properties *)

(** ** The result monad *)

Lemma bind_Ok {A B : Type} (c : result A) (k : A -> result B) (r : B) :
  bind c k = Ok r -> exists a, c = Ok a /\ k a = Ok r.
Proof.
  destruct c as [a|e]; simpl; intros H; [|discriminate].
  exists a. split; [reflexivity | exact H].
Qed.

Lemma bind_Raise {A B : Type} (c : result A) (k : A -> result B) (e : exn) :
  c = Raise e -> bind c k = Raise e.
Proof. intros ->. reflexivity. Qed.

Ltac bind_inv H a Ha :=
  apply bind_Ok in H; destruct H as [a [Ha H]].

(** ** Sums and means *)

Lemma np_sum_app (l1 l2 : list R) : np_sum (l1 ++ l2) = np_sum l1 + np_sum l2.
Proof.
  induction l1 as [|a l1 IH]; simpl.
  - lra.
  - rewrite IH. lra.
Qed.

Lemma np_sum_sq_nonneg (l : list R) :
  Forall (fun v => 0 <= v) l -> 0 <= np_sum l.
Proof.
  induction 1 as [|a l Ha _ IH]; simpl; lra.
Qed.

Lemma sq_errors_nonneg (meas pred : list R) :
  Forall (fun v => 0 <= v) (sq_errors meas pred).
Proof.
  revert pred.
  induction meas as [|m ms IH]; intros [|p ps]; simpl; constructor.
  - apply Rle_0_sqr.
  - apply IH.
Qed.

Lemma np_mean_nonneg (l : list R) :
  Forall (fun v => 0 <= v) l -> 0 <= np_mean l.
Proof.
  intros H. unfold np_mean.
  destruct l as [|a l].
  - simpl. unfold Rdiv. rewrite Rmult_0_l. lra.
  - apply Rmult_le_pos.
    + now apply np_sum_sq_nonneg.
    + left. apply Rinv_0_lt_compat. apply lt_0_INR. simpl. lia.
Qed.

Lemma mean_squared_error_nonneg (meas pred : list R) :
  0 <= mean_squared_error meas pred.
Proof. apply np_mean_nonneg, sq_errors_nonneg. Qed.

Lemma Rsqr_neg_rmse (meas pred : list R) :
  Rsqr (neg_rmse meas pred) = mean_squared_error meas pred.
Proof.
  unfold neg_rmse. rewrite <- Rsqr_neg.
  apply Rsqr_sqrt, mean_squared_error_nonneg.
Qed.

Lemma sq_errors_length (meas pred : list R) :
  length meas = length pred -> length (sq_errors meas pred) = length meas.
Proof.
  revert pred.
  induction meas as [|m ms IH]; intros [|p ps]; simpl; intros H; try discriminate.
  - reflexivity.
  - f_equal. apply IH. lia.
Qed.

Lemma concat_length_equal {A : Type} (s : nat) (ls : list (list A)) :
  Forall (fun l => length l = s) ls ->
  length (concat ls) = (length ls * s)%nat.
Proof.
  induction 1 as [|l ls Hl _ IH]; simpl.
  - reflexivity.
  - rewrite length_app, IH, Hl. reflexivity.
Qed.

Lemma np_sum_means_equal (s : nat) (ls : list (list R)) :
  Forall (fun l => length l = s) ls ->
  np_sum (map np_mean ls) = np_sum (concat ls) / INR s.
Proof.
  induction 1 as [|l ls Hl _ IH]; simpl.
  - unfold Rdiv. now rewrite Rmult_0_l.
  - rewrite np_sum_app, IH. unfold np_mean. rewrite Hl. lra.
Qed.

(** The mean of the means of equally long lists is the mean of their
    concatenation. *)
Lemma np_mean_concat_equal (s : nat) (ls : list (list R)) :
  (0 < s)%nat ->
  Forall (fun l => length l = s) ls ->
  np_mean (map np_mean ls) = np_mean (concat ls).
Proof.
  intros Hs Hall.
  unfold np_mean at 1 3.
  rewrite (np_sum_means_equal s ls Hall), (concat_length_equal s ls Hall).
  rewrite length_map, mult_INR.
  destruct ls as [|l0 ls'].
  - simpl. unfold Rdiv. now rewrite !Rmult_0_l.
  - assert (INR s <> 0) by (apply not_0_INR; lia).
    assert (INR (length (l0 :: ls')) <> 0) by (apply not_0_INR; simpl; lia).
    field. split; assumption.
Qed.

(** ** The fold partition *)

Lemma consecutive_lengths (start : nat) (sizes : list nat) :
  map (@length nat) (consecutive start sizes) = sizes.
Proof.
  revert start.
  induction sizes as [|s sizes IH]; intros start; simpl.
  - reflexivity.
  - now rewrite length_seq, IH.
Qed.

Lemma kfold_tests_count (n k : nat) : length (kfold_tests n k) = k.
Proof.
  unfold kfold_tests.
  rewrite <- (length_map (@length nat)), consecutive_lengths.
  unfold fold_sizes. now rewrite length_map, length_seq.
Qed.

Lemma fold_sizes_even (n k : nat) :
  (n mod k = 0)%nat -> Forall (fun s => s = (n / k)%nat) (fold_sizes n k).
Proof.
  intros Hmod. unfold fold_sizes. rewrite Hmod.
  apply Forall_forall. intros s Hs.
  apply in_map_iff in Hs. destruct Hs as [i [Hi _]].
  simpl in Hi. lia.
Qed.

Lemma kfold_tests_even (n k : nat) :
  (n mod k = 0)%nat ->
  Forall (fun test : list nat => length test = (n / k)%nat) (kfold_tests n k).
Proof.
  intros Hmod.
  pose proof (fold_sizes_even n k Hmod) as Hsz.
  unfold kfold_tests. rewrite <- (consecutive_lengths 0 (fold_sizes n k)) in Hsz.
  rewrite Forall_map in Hsz. exact Hsz.
Qed.

(** ** The checks made before cross-validation *)

Lemma check_split_valid (n : nat) (cv : Z) :
  (2 <= cv <= Z.of_nat n)%Z ->
  check_split n n cv = Ok (kfold_tests n (Z.to_nat cv)).
Proof.
  intros [Hlo Hhi]. unfold check_split.
  rewrite Nat.eqb_refl. simpl.
  destruct (Z.ltb_spec cv 2); [lia|].
  destruct (Z.ltb_spec (Z.of_nat n) cv); [lia|].
  reflexivity.
Qed.

Lemma check_split_mismatch (n_X n_y : nat) (cv : Z) :
  n_X <> n_y -> check_split n_X n_y cv = Raise InconsistentSamples.
Proof.
  intros H. unfold check_split.
  destruct (Nat.eqb_spec n_X n_y); [contradiction | reflexivity].
Qed.

Lemma check_split_few (n : nat) (cv : Z) :
  (cv < 2)%Z -> check_split n n cv = Raise TooFewSplits.
Proof.
  intros H. unfold check_split. rewrite Nat.eqb_refl. simpl.
  destruct (Z.ltb_spec cv 2); [reflexivity | lia].
Qed.

Lemma check_split_many (n : nat) (cv : Z) :
  (2 <= cv)%Z -> (Z.of_nat n < cv)%Z -> check_split n n cv = Raise TooManySplits.
Proof.
  intros H2 H. unfold check_split. rewrite Nat.eqb_refl. simpl.
  destruct (Z.ltb_spec cv 2); [lia|].
  destruct (Z.ltb_spec (Z.of_nat n) cv); [reflexivity | lia].
Qed.

(** ** The aggregate score *)

Lemma neg_rmse_squares (model : Estimator) (feat_df : DataFrame) (y : list R)
    (folds : list (list nat)) :
  map Rsqr (map (fun test => neg_rmse (take 0 y test)
                                      (fold_predict model (to_numpy feat_df) y test))
                folds)
  = fold_mses model feat_df y folds.
Proof.
  unfold fold_mses. rewrite map_map.
  apply map_ext. intros test. apply Rsqr_neg_rmse.
Qed.

(** With the default score, a trial's score is minus the root of the plain
    average of the per-fold mean squared errors. *)
Lemma trial_score_default (y : list R) (model : Estimator) (cv : option Z)
    (feat_df : DataFrame) :
  scorable y cv feat_df ->
  trial_score y model None cv feat_df
  = Ok (- sqrt (np_mean (fold_mses model feat_df y
                           (kfold_tests (length y) (Z.to_nat (effective_cv cv y)))))).
Proof.
  intros [Hn Hcv].
  unfold trial_score, score_model, cross_validate.
  fold (effective_cv cv y).
  rewrite Hn, check_split_valid by exact Hcv.
  simpl. now rewrite neg_rmse_squares.
Qed.

Lemma trial_score_fold_mses (y : list R) (model : Estimator) (cv : Z)
    (feat_df : DataFrame) :
  index feat_df = length y ->
  (2 <= cv <= Z.of_nat (length y))%Z ->
  trial_score y model None (Some cv) feat_df
  = Ok (- sqrt (np_mean (fold_mses model feat_df y
                                   (kfold_tests (length y) (Z.to_nat cv))))).
Proof.
  intros Hn Hcv. now apply (trial_score_default y model (Some cv)).
Qed.

Lemma fold_predict_length (model : Estimator) (X : list (list R)) (y : list R)
    (test : list nat) :
  length (fold_predict model X y test) = length test.
Proof. unfold fold_predict. apply length_map. Qed.

Lemma fold_sq_errors_length (model : Estimator) (X : list (list R)) (y : list R)
    (test : list nat) :
  length (sq_errors (take 0 y test) (fold_predict model X y test)) = length test.
Proof.
  rewrite sq_errors_length; unfold take; rewrite length_map.
  - reflexivity.
  - now rewrite fold_predict_length.
Qed.

(** When every fold holds out the same number of rows, the average of the
    per-fold mean squared errors is the pooled mean squared error. *)
Lemma fold_mses_pooled (model : Estimator) (feat_df : DataFrame) (y : list R)
    (s : nat) (folds : list (list nat)) :
  (0 < s)%nat ->
  Forall (fun test : list nat => length test = s) folds ->
  np_mean (fold_mses model feat_df y folds)
  = np_mean (held_out_sq_errors model feat_df y folds).
Proof.
  intros Hs Hall.
  unfold fold_mses, held_out_sq_errors, mean_squared_error.
  rewrite <- (map_map (fun test => sq_errors (take 0 y test)
                         (fold_predict model (to_numpy feat_df) y test)) np_mean).
  apply (np_mean_concat_equal s); [exact Hs|].
  rewrite Forall_map.
  eapply Forall_impl; [|exact Hall].
  intros test Ht. simpl. now rewrite fold_sq_errors_length.
Qed.

Lemma skew_trial_score :
  trial_score y_skew zero_regressor None (Some 2%Z) one_feature_frame
  = Ok (- sqrt (9 / 2)).
Proof.
  rewrite trial_score_fold_mses; [| reflexivity | simpl; lia].
  do 3 f_equal.
  unfold fold_mses, mean_squared_error, np_mean. simpl.
  unfold Rsqr. field.
Qed.

Lemma skew_pooled :
  pooled_neg_rmse zero_regressor one_feature_frame y_skew 2 = Ok (- sqrt 3).
Proof.
  unfold pooled_neg_rmse. simpl index. simpl length.
  rewrite check_split_valid by (simpl; lia).
  simpl. do 3 f_equal. unfold np_mean. simpl. unfold Rsqr. field.
Qed.

(** C1, as stated, fails when the folds are unequal: three rows in two
    folds, the estimator predicting zero, targets 0, 0, 3.  The code yields
    [-sqrt(9/2)] (the mean of the fold errors 0 and 9), the pooled value is
    [-sqrt(3)]. *)
Lemma aggregate_differs_from_pooled :
  trial_score y_skew zero_regressor None (Some 2%Z) one_feature_frame
  <> pooled_neg_rmse zero_regressor one_feature_frame y_skew 2.
Proof.
  rewrite skew_trial_score, skew_pooled.
  intros H. injection H as H.
  apply Ropp_eq_compat in H. rewrite !Ropp_involutive in H.
  apply sqrt_inj in H; lra.
Qed.

(** On the same input the aggregate is not the mean of the per-fold
    scores either (the folds score 0 and -3, their mean is -3/2). *)
Lemma aggregate_differs_from_fold_mean :
  exists scores predicted,
    score_model one_feature_frame y_skew zero_regressor None (Some 2%Z) false
    = Ok (scores, predicted)
    /\ cv_score scores None <> Ok (np_mean (test_neg_RMSE scores)).
Proof.
  do 2 eexists. split; [reflexivity|].
  pose proof skew_trial_score as Hts.
  unfold trial_score in Hts. simpl in Hts |- *. rewrite Hts.
  intros H. injection H as H.
  unfold neg_rmse, mean_squared_error, np_mean in H. simpl in H.
  replace (((0 - 0)² + ((0 - 0)² + 0)) / (1 + 1)) with 0 in H
    by (unfold Rsqr; field).
  replace (((3 - 0)² + 0) / 1) with (3²) in H by (unfold Rsqr; field).
  rewrite sqrt_0, sqrt_Rsqr in H by lra.
  assert (Hs : sqrt (9 / 2) = 3 / 2) by lra.
  apply (f_equal Rsqr) in Hs. rewrite Rsqr_sqrt in Hs by lra.
  unfold Rsqr in Hs. lra.
Qed.

(** C1 (as amended).  Under k-fold cross-validation with a valid fold count
    (given, or leave-one-out by default), the negative-RMSE aggregate used by
    forward selection and ranking is minus the square root of the unweighted
    mean, over the folds, of each fold's mean squared held-out error.  When
    the fold count divides the number of rows (all folds equally large,
    leave-one-out included) this is minus the square root of the mean of the
    squared held-out errors pooled over all rows. *)
Theorem aggregate_is_root_mean_fold_mse (y : list R) (model : Estimator)
    (cv : option Z) (feat_df : DataFrame) :
  scorable y cv feat_df ->
  trial_score y model None cv feat_df
  = Ok (- sqrt (np_mean (fold_mses model feat_df y
                           (kfold_tests (length y) (Z.to_nat (effective_cv cv y))))))
  /\ ((length y mod Z.to_nat (effective_cv cv y) = 0)%nat ->
      trial_score y model None cv feat_df
      = pooled_neg_rmse model feat_df y (effective_cv cv y)).
Proof.
  intros Hsc. split.
  - now apply trial_score_default.
  - intros Hmod.
    rewrite trial_score_default by assumption.
    destruct Hsc as [Hn Hcv].
    unfold pooled_neg_rmse. rewrite Hn, check_split_valid by exact Hcv. simpl.
    do 3 f_equal.
    apply (fold_mses_pooled _ _ _ (length y / Z.to_nat (effective_cv cv y))).
    + apply Nat.div_str_pos. lia.
    + now apply kfold_tests_even.
Qed.

Lemma aggregate_is_root_mean_fold_mse_witness :
  trial_score y_skew zero_regressor None (Some 2%Z) one_feature_frame
  = Ok (- sqrt (np_mean (fold_mses zero_regressor one_feature_frame y_skew
                                   (kfold_tests 3 2))))
  /\ trial_score y_skew zero_regressor None None one_feature_frame
     = pooled_neg_rmse zero_regressor one_feature_frame y_skew 3.
Proof.
  destruct (aggregate_is_root_mean_fold_mse y_skew zero_regressor (Some 2%Z)
              one_feature_frame) as [Hfolds _].
  { split; [reflexivity | simpl; lia]. }
  destruct (aggregate_is_root_mean_fold_mse y_skew zero_regressor None
              one_feature_frame) as [_ Hpooled].
  { split; [reflexivity | simpl; lia]. }
  split; [exact Hfolds | apply Hpooled; reflexivity].
Defined.

(** ** score_model: when it raises and when it returns *)

Lemma score_model_mismatch (feat_df : DataFrame) (y : list R) (model : Estimator)
    (score_fn : option ScoreFn) (cv : option Z) (find_predicted : bool) :
  index feat_df <> length y ->
  score_model feat_df y model score_fn cv find_predicted = Raise InconsistentSamples.
Proof.
  intros H. unfold score_model, cross_validate.
  now rewrite check_split_mismatch.
Qed.

Lemma score_model_bad_folds (feat_df : DataFrame) (y : list R) (model : Estimator)
    (score_fn : option ScoreFn) (cv : option Z) (find_predicted : bool) :
  index feat_df = length y ->
  (effective_cv cv y < 2 \/ Z.of_nat (length y) < effective_cv cv y)%Z ->
  exists e, score_model feat_df y model score_fn cv find_predicted = Raise e
            /\ InvalidFoldCount e.
Proof.
  intros Hn Hcv. unfold score_model, cross_validate.
  fold (effective_cv cv y). rewrite Hn.
  destruct (Z.lt_ge_cases (effective_cv cv y) 2) as [Hlt | Hge].
  - exists TooFewSplits. rewrite check_split_few by exact Hlt.
    split; [reflexivity | now left].
  - exists TooManySplits. rewrite check_split_many by lia.
    split; [reflexivity | now right].
Qed.

Lemma score_model_returns (feat_df : DataFrame) (y : list R) (model : Estimator)
    (score_fn : option ScoreFn) (cv : option Z) (find_predicted : bool) :
  scorable y cv feat_df ->
  exists scores predicted,
    score_model feat_df y model score_fn cv find_predicted = Ok (scores, predicted)
    /\ length (test_neg_RMSE scores) = Z.to_nat (effective_cv cv y)
    /\ (test_user scores = None <-> score_fn = None).
Proof.
  intros [Hn Hcv]. unfold score_model, cross_validate, cross_val_predict.
  fold (effective_cv cv y).
  rewrite Hn, check_split_valid by exact Hcv. simpl.
  destruct find_predicted; do 2 eexists; (split; [reflexivity|]); simpl;
    rewrite length_map, kfold_tests_count;
    (split; [reflexivity | destruct score_fn; simpl; split; congruence]).
Qed.

(** C8.  With as many rows as targets, [score_model] raises the fold-count
    error for every fold count (given, or the default number of rows) below
    two or above the number of rows; it raises the length error whenever the
    row count differs from the target length; and with at least two rows it
    returns, with one score per row, when the fold count is the number of
    rows (given, or by default). *)
Theorem score_model_input_checks (feat_df : DataFrame) (y : list R)
    (model : Estimator) (score_fn : option ScoreFn) (find_predicted : bool) :
  (forall cv : option Z,
      index feat_df = length y ->
      (effective_cv cv y < 2 \/ Z.of_nat (length y) < effective_cv cv y)%Z ->
      exists e, score_model feat_df y model score_fn cv find_predicted = Raise e
                /\ InvalidFoldCount e)
  /\ (forall cv : option Z,
      index feat_df <> length y ->
      exists e, score_model feat_df y model score_fn cv find_predicted = Raise e
                /\ DimensionMismatch e)
  /\ (forall cv : option Z,
      index feat_df = length y ->
      (2 <= length y)%nat ->
      effective_cv cv y = Z.of_nat (length y) ->
      exists scores predicted,
        score_model feat_df y model score_fn cv find_predicted = Ok (scores, predicted)
        /\ length (test_neg_RMSE scores) = length y).
Proof.
  split; [|split].
  - intros cv Hn Hcv. now apply score_model_bad_folds.
  - intros cv Hn. exists InconsistentSamples.
    split; [now apply score_model_mismatch | reflexivity].
  - intros cv Hn Hy Heff.
    destruct (score_model_returns feat_df y model score_fn cv find_predicted)
      as [scores [predicted [Hrun [Hlen _]]]].
    + split; [exact Hn | rewrite Heff; lia].
    + exists scores, predicted. split; [exact Hrun|].
      now rewrite Hlen, Heff, Nat2Z.id.
Qed.

Lemma score_model_input_checks_witness :
  (exists e, score_model one_feature_frame y_skew zero_regressor None (Some 1%Z) true
             = Raise e /\ InvalidFoldCount e)
  /\ (exists e, score_model one_feature_frame y_skew zero_regressor None (Some 4%Z) true
                = Raise e /\ InvalidFoldCount e)
  /\ (exists e, score_model one_feature_frame [0; 0] zero_regressor None None true
                = Raise e /\ DimensionMismatch e)
  /\ (exists scores predicted,
         score_model one_feature_frame y_skew zero_regressor None None true
         = Ok (scores, predicted)
         /\ length (test_neg_RMSE scores) = length y_skew)
  /\ (exists scores predicted,
         score_model one_feature_frame y_skew zero_regressor None (Some 3%Z) false
         = Ok (scores, predicted)
         /\ length (test_neg_RMSE scores) = length y_skew).
Proof.
  destruct (score_model_input_checks one_feature_frame y_skew zero_regressor None true)
    as [Hfold [_ Hrun]].
  destruct (score_model_input_checks one_feature_frame [0; 0] zero_regressor None true)
    as [_ [Hdim _]].
  destruct (score_model_input_checks one_feature_frame y_skew zero_regressor None false)
    as [_ [_ Hrun']].
  split; [|split; [|split; [|split]]].
  - apply Hfold; [reflexivity | left; simpl; lia].
  - apply Hfold; [reflexivity | right; simpl; lia].
  - apply Hdim. simpl. lia.
  - apply Hrun; [reflexivity | simpl; lia | reflexivity].
  - apply Hrun'; [reflexivity | simpl; lia | reflexivity].
Defined.

(** ** The selection loops *)

Lemma score_gt_neg_inf (s : R) : score_gt s NegInf = true.
Proof. reflexivity. Qed.

Lemma score_gt_fin_true (s b : R) : score_gt s (Fin b) = true <-> b < s.
Proof.
  simpl. destruct (Rgt_dec s b) as [H | H]; split; intros; try discriminate;
    try reflexivity; lra.
Qed.

Lemma score_gt_fin_false (s b : R) : score_gt s (Fin b) = false <-> s <= b.
Proof.
  simpl. destruct (Rgt_dec s b) as [H | H]; split; intros; try discriminate;
    try reflexivity; lra.
Qed.

Section SelectionFacts.

Variable y : list R.
Variable model : Estimator.
Variable score_fn : option ScoreFn.
Variable cv : option Z.

#[local] Abbreviation trial := (trial_score y model score_fn cv).
#[local] Abbreviation scores_as := (scores_as y model score_fn cv).

Lemma trial_score_returns (feat_df : DataFrame) :
  scorable y cv feat_df -> exists s, trial feat_df = Ok s.
Proof.
  intros Hsc. unfold trial_score.
  destruct (score_model_returns feat_df y model score_fn cv false Hsc)
    as [scores [predicted [Hrun [_ Huser]]]].
  rewrite Hrun. simpl. unfold cv_score.
  destruct score_fn as [f|].
  - destruct (test_user scores) as [u|] eqn:Hu.
    + eexists. reflexivity.
    + exfalso. destruct Huser as [Huser _]. specialize (Huser eq_refl). discriminate.
  - eexists. reflexivity.
Qed.

(** What the inner loop leaves in [best_*]: either nothing beat the incoming
    best score, or the winner is the first candidate holding the highest
    score, and that score beats the incoming one. *)
Lemma scan_first_best (sel : DataFrame) (items : list Column) (b b' : Best) :
  scan y model score_fn cv sel items b = Ok b' ->
  (b' = b /\
   Forall (scores_as sel (fun s => score_gt s (best_score b) = false)) items)
  \/
  (exists pre key vec post s,
      items = pre ++ (key, vec) :: post
      /\ trial (concat_column sel (key, vec)) = Ok s
      /\ b' = {| best_score := Fin s; best_feat := vec; best_key := key |}
      /\ score_gt s (best_score b) = true
      /\ Forall (scores_as sel (fun s' => s' < s)) pre
      /\ Forall (scores_as sel (fun s' => s' <= s)) post).
Proof.
  revert b.
  induction items as [|[k v] rest IH]; intros b Hscan; simpl in Hscan.
  - left. injection Hscan as <-. split; [reflexivity | constructor].
  - destruct (trial (concat_column sel (k, v))) as [s0|e] eqn:Hs0;
      simpl in Hscan; [|discriminate].
    destruct (score_gt s0 (best_score b)) eqn:Hgt.
    + right.
      destruct (IH _ Hscan) as [[Hb' Hall] | (pre & key & vec & post & s & H)].
      * exists [], k, v, rest, s0. simpl in Hall.
        repeat split; try assumption; try constructor.
        eapply Forall_impl; [|exact Hall].
        intros c [s' [Hc Hle]]. exists s'. split; [exact Hc|].
        now apply score_gt_fin_false.
      * destruct H as (Hitems & Hs & Hb' & Hbeat & Hpre & Hpost).
        simpl in Hbeat. apply score_gt_fin_true in Hbeat.
        exists ((k, v) :: pre), key, vec, post, s.
        repeat split; try assumption.
        -- now rewrite Hitems.
        -- destruct (best_score b) as [|b0]; [reflexivity|].
           apply score_gt_fin_true in Hgt. apply score_gt_fin_true. lra.
        -- constructor; [|exact Hpre]. exists s0. split; [exact Hs0 | exact Hbeat].
    + destruct (IH _ Hscan) as [[Hb' Hall] | (pre & key & vec & post & s & H)].
      * left. split; [exact Hb'|].
        constructor; [|exact Hall]. exists s0. split; [exact Hs0 | exact Hgt].
      * right. destruct H as (Hitems & Hs & Hb' & Hbeat & Hpre & Hpost).
        exists ((k, v) :: pre), key, vec, post, s.
        repeat split; try assumption.
        -- now rewrite Hitems.
        -- constructor; [|exact Hpre]. exists s0. split; [exact Hs0|].
           destruct (best_score b) as [|b0]; [discriminate|].
           apply score_gt_fin_false in Hgt. apply score_gt_fin_true in Hbeat. lra.
Qed.

(** Started from [-inf] on at least one candidate, the inner loop always
    ends on a winner. *)
Lemma scan_from_neg_inf (sel : DataFrame) (items : list Column) (key0 : string)
    (b' : Best) :
  items <> [] ->
  scan y model score_fn cv sel items
       {| best_score := NegInf; best_feat := []; best_key := key0 |} = Ok b' ->
  exists pre key vec post s,
    items = pre ++ (key, vec) :: post
    /\ trial (concat_column sel (key, vec)) = Ok s
    /\ b' = {| best_score := Fin s; best_feat := vec; best_key := key |}
    /\ Forall (scores_as sel (fun s' => s' < s)) pre
    /\ Forall (scores_as sel (fun s' => s' <= s)) post.
Proof.
  intros Hne Hscan.
  destruct (scan_first_best _ _ _ _ Hscan) as [[_ Hall] | (pre & key & vec & post & s & H)].
  - destruct items as [|c rest]; [contradiction|].
    inversion Hall as [|? ? [s [_ Hs]] _]. discriminate.
  - destruct H as (Hitems & Hs & Hb' & _ & Hpre & Hpost).
    exists pre, key, vec, post, s. repeat split; assumption.
Qed.

(** *** Column bookkeeping *)

Lemma has_key_in (key : string) (cols : list Column) :
  has_key key cols = true <-> In key (map fst cols).
Proof.
  unfold has_key. rewrite existsb_exists. split.
  - intros [c [Hc Heq]]. apply String.eqb_eq in Heq. subst key.
    now apply in_map.
  - intros Hin. apply in_map_iff in Hin. destruct Hin as [c [Heq Hc]].
    exists c. split; [exact Hc | now apply String.eqb_eq].
Qed.

Lemma has_key_not_in (key : string) (cols : list Column) :
  has_key key cols = false <-> ~ In key (map fst cols).
Proof.
  rewrite <- has_key_in. destruct (has_key key cols); split; intros; congruence.
Qed.

Lemma drop_key_absent (key : string) (cols : list Column) :
  ~ In key (map fst cols) -> drop_key key cols = cols.
Proof.
  induction cols as [|[k v] cols IH]; simpl; intros Hn.
  - reflexivity.
  - destruct (String.eqb_spec k key) as [->|Hk]; simpl.
    + exfalso. apply Hn. now left.
    + f_equal. apply IH. intros H. apply Hn. now right.
Qed.

Lemma drop_key_unique (key : string) (vec : list R) (pre post : list Column) :
  NoDup (map fst (pre ++ (key, vec) :: post)) ->
  drop_key key (pre ++ (key, vec) :: post) = pre ++ post.
Proof.
  intros Hnd. rewrite map_app in Hnd. simpl in Hnd.
  pose proof (NoDup_remove_2 _ _ _ Hnd) as Hnot.
  unfold drop_key. rewrite filter_app. simpl.
  rewrite String.eqb_refl. simpl.
  fold (drop_key key pre). fold (drop_key key post).
  rewrite !drop_key_absent; [reflexivity | |];
    intros H; apply Hnot, in_or_app; auto.
Qed.

Lemma drop_key_keys (key k : string) (cols : list Column) :
  In k (map fst (drop_key key cols)) <-> In k (map fst cols) /\ k <> key.
Proof.
  unfold drop_key. rewrite !in_map_iff. split.
  - intros [c [Hk Hc]]. apply filter_In in Hc. destruct Hc as [Hc Hneq].
    split; [now exists c|].
    subst k. now destruct (String.eqb_spec (fst c) key).
  - intros [[c [Hk Hc]] Hneq]. exists c. split; [exact Hk|].
    apply filter_In. split; [exact Hc|].
    subst k. now destruct (String.eqb_spec (fst c) key).
Qed.

Lemma drop_key_shrinks (key : string) (cols : list Column) :
  In key (map fst cols) -> (length (drop_key key cols) < length cols)%nat.
Proof.
  induction cols as [|[k v] cols IH]; simpl; intros Hin; [contradiction|].
  destruct (String.eqb_spec k key) as [->|Hk]; simpl.
  - pose proof (filter_length_le (fun c : Column => negb (String.eqb (fst c) key)) cols).
    unfold drop_key. lia.
  - destruct Hin as [Hin|Hin]; [contradiction|]. specialize (IH Hin). lia.
Qed.

(** *** One pass of the outer loop *)

(** The effect of a pass that does not raise, read off the code. *)
Lemma select_step_effect (sel : DataFrame) (scores : list xfloat) (avail : DataFrame)
    (sel' : DataFrame) (scores' : list xfloat) (avail' : DataFrame) :
  select_step y model score_fn cv sel scores avail = Ok (sel', scores', avail') ->
  exists pre key vec post s,
    columns avail = pre ++ (key, vec) :: post
    /\ trial (concat_column sel (key, vec)) = Ok s
    /\ Forall (scores_as sel (fun s' => s' < s)) pre
    /\ Forall (scores_as sel (fun s' => s' <= s)) post
    /\ scores' = scores ++ [Fin s]
    /\ length vec = index sel
    /\ index sel' = index sel
    /\ columns sel' =
        (if has_key key (columns sel)
         then map (fun c : Column => if String.eqb (fst c) key then (key, vec) else c)
                  (columns sel)
         else columns sel ++ [(key, vec)])
    /\ index avail' = index avail
    /\ columns avail' = drop_key key (columns avail).
Proof.
  unfold select_step. intros Hstep.
  bind_inv Hstep key0 Hkey0. bind_inv Hstep b Hscan.
  bind_inv Hstep sel1 Hset. bind_inv Hstep avail1 Hpop.
  injection Hstep as <- <- <-.
  apply scan_from_neg_inf in Hscan;
    [|unfold first_key in Hkey0; destruct (columns avail); discriminate].
  destruct Hscan as (pre & key & vec & post & s & Hitems & Hs & Hb & Hpre & Hpost).
  subst b. simpl in Hset, Hpop |- *.
  unfold set_column in Hset.
  destruct (Nat.eqb_spec (length vec) (index sel)) as [Hlen|Hlen];
    simpl in Hset; [|discriminate].
  unfold pop in Hpop.
  exists pre, key, vec, post, s.
  destruct (has_key key (columns avail)); [|discriminate].
  injection Hpop as <-.
  destruct (has_key key (columns sel)); injection Hset as <-; simpl;
    repeat split; assumption || reflexivity.
Qed.

End SelectionFacts.

Lemma NoDup_keys_filter (f : Column -> bool) (cols : list Column) :
  NoDup (map fst cols) -> NoDup (map fst (filter f cols)).
Proof.
  induction cols as [|c cols IH]; simpl; intros Hnd.
  - constructor.
  - inversion Hnd as [|? ? Hnot Hrest]; subst.
    destruct (f c); simpl; [constructor|]; auto.
    intros Hin. apply Hnot.
    apply in_map_iff in Hin. destruct Hin as [c' [Heq Hc']].
    apply filter_In in Hc'. rewrite <- Heq. apply in_map. tauto.
Qed.

Lemma key_of_split (cols pre post : list Column) (key : string) (vec : list R) :
  cols = pre ++ (key, vec) :: post -> In key (map fst cols) /\ In (key, vec) cols.
Proof.
  intros ->. split.
  - rewrite map_app. apply in_or_app. right. now left.
  - apply in_or_app. right. now left.
Qed.

Section LoopFacts.

Variable y : list R.
Variable model : Estimator.
Variable score_fn : option ScoreFn.
Variable cv : option Z.

#[local] Abbreviation trial := (trial_score y model score_fn cv).
#[local] Abbreviation scores_as := (scores_as y model score_fn cv).
#[local] Abbreviation step := (select_step y model score_fn cv).
#[local] Abbreviation loop := (select_loop y model score_fn cv).

Lemma invariant_first (feat_df : DataFrame) :
  loop_invariant feat_df {| index := index feat_df; columns := [] |} [] feat_df.
Proof.
  unfold loop_invariant, column_keys, shape1. simpl.
  repeat split; try reflexivity; try constructor; try easy;
    try apply incl_refl.
Qed.

(** A pass that does not raise appends the winner to the selected frame,
    records its score and keeps the invariant; the available frame loses a
    column. *)
Lemma invariant_step (feat_df sel : DataFrame) (scores : list xfloat) (avail : DataFrame)
    (sel' : DataFrame) (scores' : list xfloat) (avail' : DataFrame) :
  loop_invariant feat_df sel scores avail ->
  step sel scores avail = Ok (sel', scores', avail') ->
  loop_invariant feat_df sel' scores' avail'
  /\ shape1 sel' = S (shape1 sel)
  /\ (shape1 avail' < shape1 avail)%nat
  /\ exists pre key vec post s,
      columns avail = pre ++ (key, vec) :: post
      /\ trial (concat_column sel (key, vec)) = Ok s
      /\ Forall (scores_as sel (fun s' => s' < s)) pre
      /\ Forall (scores_as sel (fun s' => s' <= s)) post
      /\ columns sel' = columns sel ++ [(key, vec)]
      /\ scores' = scores ++ [Fin s]
      /\ columns avail' = drop_key key (columns avail).
Proof.
  intros (Hisel & Hiav & Hnd & Hdisj & Hsel & Hav & Hlen) Hstep.
  apply select_step_effect in Hstep.
  destruct Hstep as (pre & key & vec & post & s & Hcols & Hs & Hpre & Hpost
                     & Hsc & Hvec & Hisel' & Hsel' & Hiav' & Hav').
  destruct (key_of_split _ _ _ _ _ Hcols) as [Hkey Hcol].
  assert (Hfresh : ~ In key (column_keys sel)).
  { intros Hin. now apply (Hdisj key Hin). }
  apply has_key_not_in in Hfresh as Hhas. rewrite Hhas in Hsel'.
  unfold loop_invariant, shape1, column_keys in *.
  rewrite Hsel', Hav', Hsc, Hisel', Hiav', !length_app, map_app. simpl.
  repeat split; try assumption; try lia.
  - apply NoDup_app; [exact Hnd | repeat constructor; easy |].
    intros k Hk [<-|[]]. contradiction.
  - intros k Hk Hin. apply drop_key_keys in Hin. destruct Hin as [Hin Hneq].
    apply in_app_or in Hk. destruct Hk as [Hk|[Hk|[]]].
    + now apply (Hdisj k Hk).
    + congruence.
  - apply incl_app; [exact Hsel|]. intros c [<-|[]]. now apply Hav.
  - intros c Hc. apply Hav. unfold drop_key in Hc. apply filter_In in Hc. tauto.
  - now apply drop_key_shrinks.
  - exists pre, key, vec, post, s. repeat split; assumption.
Qed.

Lemma iteration_invariant (feat_df sel : DataFrame) (scores : list xfloat)
    (avail : DataFrame) :
  iteration y model score_fn cv feat_df sel scores avail ->
  loop_invariant feat_df sel scores avail
  /\ (NoDup (column_keys feat_df) -> NoDup (column_keys avail)).
Proof.
  induction 1 as [|sel scores avail sel' scores' avail' _ [IHinv IHnd] Hstep].
  - split; [apply invariant_first | auto].
  - destruct (invariant_step _ _ _ _ _ _ _ IHinv Hstep)
      as (Hinv & _ & _ & pre & key & vec & post & s & H).
    split; [exact Hinv|]. intros Hnd.
    destruct H as (_ & _ & _ & _ & _ & _ & Hav').
    unfold column_keys. rewrite Hav'. now apply NoDup_keys_filter, IHnd.
Qed.

(** C2.  In every pass of the loop of [forward_selection] over a table with
    distinct column names, the candidate moved to the selected set is the
    first one, in the order of the available columns, that holds the highest
    trial score: candidates before it score strictly less, candidates after
    it score no more.  It is appended to the selected columns, its score is
    appended to the scores, and it leaves the available columns, whose order
    is otherwise unchanged. *)
Theorem select_step_takes_first_best (feat_df sel : DataFrame) (scores : list xfloat)
    (avail sel' : DataFrame) (scores' : list xfloat) (avail' : DataFrame) :
  NoDup (column_keys feat_df) ->
  iteration y model score_fn cv feat_df sel scores avail ->
  step sel scores avail = Ok (sel', scores', avail') ->
  exists pre key vec post s,
    columns avail = pre ++ (key, vec) :: post
    /\ trial (concat_column sel (key, vec)) = Ok s
    /\ Forall (scores_as sel (fun s' => s' < s)) pre
    /\ Forall (scores_as sel (fun s' => s' <= s)) post
    /\ columns sel' = columns sel ++ [(key, vec)]
    /\ scores' = scores ++ [Fin s]
    /\ columns avail' = pre ++ post.
Proof.
  intros Hnd Hiter Hstep.
  destruct (iteration_invariant _ _ _ _ Hiter) as [Hinv Hav].
  destruct (invariant_step _ _ _ _ _ _ _ Hinv Hstep)
    as (_ & _ & _ & pre & key & vec & post & s
        & Hcols & Hs & Hpre & Hpost & Hsel' & Hsc & Hav').
  exists pre, key, vec, post, s.
  repeat split; try assumption.
  rewrite Hav', Hcols. apply drop_key_unique.
  specialize (Hav Hnd). unfold column_keys in Hav.
  rewrite Hcols in Hav. exact Hav.
Qed.

(** *** Passes that complete *)

Lemma scorable_index (df1 df2 : DataFrame) :
  index df1 = index df2 -> scorable y cv df1 -> scorable y cv df2.
Proof. unfold scorable. intros <-. auto. Qed.

Lemma scan_returns (sel : DataFrame) (items : list Column) (b : Best) :
  scorable y cv sel ->
  exists b', scan y model score_fn cv sel items b = Ok b'.
Proof.
  intros Hsc. revert b.
  induction items as [|[k v] rest IH]; intros b; simpl.
  - now exists b.
  - destruct (trial_score_returns y model score_fn cv (concat_column sel (k, v)))
      as [s Hs].
    + now apply (scorable_index sel).
    + rewrite Hs. simpl. apply IH.
Qed.

Lemma select_step_returns (sel : DataFrame) (scores : list xfloat) (avail : DataFrame) :
  scorable y cv sel ->
  columns avail <> [] ->
  Forall (fun c : Column => length (snd c) = index sel) (columns avail) ->
  exists r, step sel scores avail = Ok r.
Proof.
  intros Hsc Hne Hwf.
  assert (exists c0 rest, columns avail = c0 :: rest) as (c0 & rest & Hcols)
    by (destruct (columns avail); [contradiction | eauto]).
  destruct (scan_returns sel (c0 :: rest)
              {| best_score := NegInf; best_feat := []; best_key := fst c0 |} Hsc)
    as [b Hscan].
  unfold select_step, first_key. rewrite Hcols. cbn [bind].
  rewrite Hscan. cbn [bind].
  apply scan_from_neg_inf in Hscan; [|discriminate].
  destruct Hscan as (pre & key & vec & post & s & Hitems & _ & -> & _).
  cbn [best_key best_feat best_score].
  assert (Hin : In (key, vec) (c0 :: rest)).
  { rewrite Hitems. apply in_or_app. right. now left. }
  assert (Hlen : length vec = index sel).
  { rewrite Hcols, Forall_forall in Hwf. apply (Hwf _ Hin). }
  unfold set_column. rewrite Hlen, Nat.eqb_refl. cbn [negb].
  assert (Hkey : has_key key (columns avail) = true).
  { apply has_key_in. rewrite Hcols. apply (in_map fst) in Hin. exact Hin. }
  unfold pop. rewrite Hkey.
  destruct (has_key key (columns sel)); cbn [bind]; eexists; reflexivity.
Qed.

(** *** The loop as a whole *)

(** The bound given to the loop is never hit. *)
Lemma select_loop_bound (fuel : nat) (m : Z) (sel : DataFrame) (scores : list xfloat)
    (avail : DataFrame) :
  (shape1 avail < fuel)%nat ->
  loop fuel m sel scores avail <> OutOfFuel.
Proof.
  revert sel scores avail.
  induction fuel as [|fuel IH]; intros sel scores avail Hfuel; [lia|].
  simpl. destruct (Z.of_nat (shape1 sel) <? m)%Z; [|discriminate].
  destruct (step sel scores avail)
    as [[[sel' scores'] avail']|e] eqn:Hstep; [|discriminate].
  apply IH.
  apply select_step_effect in Hstep.
  destruct Hstep as (pre & key & vec & post & s & Hcols & _ & _ & _ & _ & _ & _ & _
                     & _ & Hav').
  destruct (key_of_split _ _ _ _ _ Hcols) as [Hkey _].
  apply drop_key_shrinks in Hkey. unfold shape1 in *. rewrite Hav'. lia.
Qed.

(** What a completed loop returns. *)
Lemma select_loop_result (feat_df : DataFrame) (fuel : nat) (m : Z) (sel : DataFrame)
    (scores : list xfloat) (avail sel' : DataFrame) (scores' : list xfloat) :
  loop_invariant feat_df sel scores avail ->
  (Z.of_nat (shape1 sel) <= m)%Z ->
  loop fuel m sel scores avail = Done (Ok (sel', scores')) ->
  Z.of_nat (shape1 sel') = m
  /\ exists avail', loop_invariant feat_df sel' scores' avail'.
Proof.
  revert sel scores avail.
  induction fuel as [|fuel IH]; intros sel scores avail Hinv Hle Hloop;
    simpl in Hloop;
    destruct (Z.ltb_spec (Z.of_nat (shape1 sel)) m) as [Hlt|Hge];
    try discriminate;
    try (injection Hloop as <- <-; split; [lia | now exists avail]).
  destruct (step sel scores avail)
    as [[[sel1 scores1] avail1]|e] eqn:Hstep; [|discriminate].
  destruct (invariant_step _ _ _ _ _ _ _ Hinv Hstep) as (Hinv1 & Hgrow & _).
  apply (IH _ _ _ Hinv1); [lia | exact Hloop].
Qed.

(** With distinct column names and inputs that score, the loop reaches any
    bound up to the number of columns. *)
Lemma select_loop_returns (feat_df : DataFrame) (fuel : nat) (m : Z) (sel : DataFrame)
    (scores : list xfloat) (avail : DataFrame) :
  (shape1 avail < fuel)%nat ->
  scorable y cv feat_df ->
  well_formed feat_df ->
  loop_invariant feat_df sel scores avail ->
  NoDup (column_keys avail) ->
  (m <= Z.of_nat (shape1 sel + shape1 avail))%Z ->
  exists sel' scores', loop fuel m sel scores avail = Done (Ok (sel', scores')).
Proof.
  intros Hfuel Hsc Hwf. revert sel scores avail Hfuel.
  induction fuel as [|fuel IH]; intros sel scores avail Hfuel Hinv Hnd Hm; [lia|].
  simpl. destruct (Z.ltb_spec (Z.of_nat (shape1 sel)) m) as [Hlt|Hge];
    [|now eauto].
  assert (Hne : columns avail <> []).
  { intros Hnil. unfold shape1 in Hm, Hlt. rewrite Hnil in Hm. simpl in Hm. lia. }
  destruct Hinv as (Hisel & Hiav & Hinv).
  assert (Hlens : Forall (fun c : Column => length (snd c) = index sel) (columns avail)).
  { destruct Hinv as (_ & _ & _ & Hav & _).
    rewrite Hisel. unfold well_formed in Hwf. rewrite Forall_forall in *.
    intros c Hc. now apply Hwf, Hav. }
  destruct (select_step_returns sel scores avail) as [[[sel1 scores1] avail1] Hstep];
    [now apply (scorable_index feat_df) | exact Hne | exact Hlens |].
  rewrite Hstep.
  assert (Hinv0 : loop_invariant feat_df sel scores avail) by (repeat split; tauto).
  destruct (invariant_step _ _ _ _ _ _ _ Hinv0 Hstep)
    as (Hinv1 & Hgrow & _ & pre & key & vec & post & s & Hcols & _ & _ & _ & _ & _ & Hav1).
  assert (Hav1' : columns avail1 = pre ++ post).
  { rewrite Hav1, Hcols. apply drop_key_unique.
    unfold column_keys in Hnd. rewrite Hcols in Hnd. exact Hnd. }
  assert (Hshape : shape1 avail = S (shape1 avail1)).
  { unfold shape1. rewrite Hcols, Hav1', !length_app. simpl. lia. }
  apply IH; [lia | exact Hinv1 | | lia].
  unfold column_keys. rewrite Hav1. apply NoDup_keys_filter, Hnd.
Qed.

(** Past the number of columns, the loop ends on the first column of an
    empty frame. *)
Lemma select_loop_exhausts (fuel : nat) (m : Z) (sel : DataFrame)
    (scores : list xfloat) (avail : DataFrame) :
  (shape1 avail < fuel)%nat ->
  columns avail = [] \/
    (scorable y cv sel /\
     Forall (fun c : Column => length (snd c) = index sel) (columns avail)) ->
  (Z.of_nat (shape1 sel + shape1 avail) < m)%Z ->
  loop fuel m sel scores avail = Done (Raise IndexOutOfBounds).
Proof.
  revert sel scores avail.
  induction fuel as [|fuel IH]; intros sel scores avail Hfuel Hok Hm; [lia|].
  simpl. destruct (Z.ltb_spec (Z.of_nat (shape1 sel)) m) as [Hlt|Hge]; [|lia].
  destruct (columns avail) as [|c0 rest] eqn:Hcols.
  - unfold select_step, first_key. rewrite Hcols. reflexivity.
  - destruct Hok as [Hnil | [Hsc Hlens]]; [discriminate|].
    destruct (select_step_returns sel scores avail) as [[[sel1 scores1] avail1] Hstep];
      [exact Hsc | now rewrite Hcols | now rewrite Hcols |].
    rewrite Hstep.
    apply select_step_effect in Hstep.
    destruct Hstep as (pre & key & vec & post & s & Hsplit & _ & _ & _ & _ & _ & Hisel
                       & Hsel1 & Hiav & Hav1).
    destruct (key_of_split _ _ _ _ _ Hsplit) as [Hkey _].
    apply drop_key_shrinks in Hkey.
    assert (Hgrow : (shape1 sel1 <= S (shape1 sel))%nat).
    { unfold shape1. rewrite Hsel1.
      destruct (has_key key (columns sel)); rewrite ?length_map, ?length_app;
        simpl; lia. }
    apply IH.
    + unfold shape1 in *. rewrite Hav1, Hcols in *. simpl in *. lia.
    + right. split; [now apply (scorable_index sel)|].
      rewrite Hisel, Hav1, Hcols. unfold drop_key.
      rewrite Forall_forall in *. intros c Hc. apply filter_In in Hc. now apply Hlens.
    + unfold shape1 in *. rewrite Hav1, Hcols in *. simpl in *. lia.
Qed.

(** *** forward_selection *)

Lemma forward_selection_unfold (feat_df : DataFrame) (max_num_feats : Z) :
  forward_selection y model score_fn cv feat_df max_num_feats
  = match loop (S (shape1 feat_df)) (effective_max feat_df max_num_feats)
               {| index := index feat_df; columns := [] |} [] feat_df with
    | OutOfFuel => OutOfFuel
    | Done r =>
        Done ('(selected_feats_df, selected_scores) <- r ;;
              best_len <- np_argmax selected_scores ;;
              Ok (selected_feats_df, selected_scores))
    end.
Proof. reflexivity. Qed.

(** The loop bound of the model is never reached: [forward_selection]
    returns or raises. *)
Lemma forward_selection_terminates (feat_df : DataFrame) (max_num_feats : Z) :
  exists r, forward_selection y model score_fn cv feat_df max_num_feats = Done r.
Proof.
  rewrite forward_selection_unfold.
  destruct (loop _ _ _ _ _) as [r|] eqn:Hloop.
  - eexists. reflexivity.
  - exfalso. apply select_loop_bound in Hloop; [exact Hloop | lia].
Qed.

Lemma incl_keys (sel feat_df : DataFrame) :
  incl (columns sel) (columns feat_df) -> incl (column_keys sel) (column_keys feat_df).
Proof.
  intros H k Hk. unfold column_keys in *.
  apply in_map_iff in Hk. destruct Hk as [c [<- Hc]]. apply in_map. now apply H.
Qed.

Lemma forward_selection_returns (feat_df : DataFrame) (max_num_feats : Z) :
  scorable y cv feat_df ->
  well_formed feat_df ->
  NoDup (column_keys feat_df) ->
  (1 <= effective_max feat_df max_num_feats <= Z.of_nat (shape1 feat_df))%Z ->
  exists sel scores,
    forward_selection y model score_fn cv feat_df max_num_feats
    = Done (Ok (sel, scores)).
Proof.
  intros Hsc Hwf Hnd Hm. rewrite forward_selection_unfold.
  destruct (select_loop_returns feat_df (S (shape1 feat_df))
              (effective_max feat_df max_num_feats)
              {| index := index feat_df; columns := [] |} [] feat_df)
    as [sel [scores Hloop]]; auto using invariant_first.
  { cbn [shape1 columns length Nat.add]. lia. }
  rewrite Hloop. cbn [bind].
  assert (H0 : (Z.of_nat (shape1 {| index := index feat_df; columns := [] |})
                <= effective_max feat_df max_num_feats)%Z)
    by (cbn [shape1 columns length Z.of_nat]; lia).
  destruct (select_loop_result feat_df _ _ _ _ _ _ _
              (invariant_first feat_df) H0 Hloop)
    as [Hshape [avail' (_ & _ & _ & _ & _ & _ & Hlen)]].
  destruct scores as [|s0 scores]; [simpl in Hlen; lia|].
  cbn [np_argmax bind]. eauto.
Qed.

(** C6.  Whenever [forward_selection] returns, the score sequence has as
    many entries as the bound of the loop ([max_num_feats], or the number of
    columns when it is 0), there is one selected column per score, the
    selected names are pairwise distinct and every selected column is a
    column of the input table.  It does return when the inputs can be scored,
    the column names are distinct and the bound is between one and the number
    of columns. *)
Theorem forward_selection_result (feat_df : DataFrame) (max_num_feats : Z) :
  (forall sel scores,
      forward_selection y model score_fn cv feat_df max_num_feats
      = Done (Ok (sel, scores)) ->
      Z.of_nat (length scores) = effective_max feat_df max_num_feats
      /\ shape1 sel = length scores
      /\ NoDup (column_keys sel)
      /\ incl (columns sel) (columns feat_df)
      /\ incl (column_keys sel) (column_keys feat_df))
  /\ (scorable y cv feat_df ->
      well_formed feat_df ->
      NoDup (column_keys feat_df) ->
      (1 <= effective_max feat_df max_num_feats <= Z.of_nat (shape1 feat_df))%Z ->
      exists sel scores,
        forward_selection y model score_fn cv feat_df max_num_feats
        = Done (Ok (sel, scores))).
Proof.
  split.
  - intros sel scores Hrun. rewrite forward_selection_unfold in Hrun.
    destruct (loop _ _ _ _ _) as [[[sel0 scores0]|e]|] eqn:Hloop;
      try discriminate.
    cbn [bind] in Hrun.
    destruct scores0 as [|s0 scores0]; [discriminate|].
    cbn [np_argmax bind] in Hrun. injection Hrun as <- <-.
    destruct (Z.le_gt_cases 0 (effective_max feat_df max_num_feats)) as [Hpos|Hneg].
    + destruct (select_loop_result feat_df _ _ _ _ _ _ _
                  (invariant_first feat_df) Hpos Hloop)
        as [Hm [avail' (_ & _ & Hnd & _ & Hsel & _ & Hlen)]].
      rewrite Hlen. repeat split; auto using incl_keys.
    + simpl in Hloop.
      destruct (Z.ltb_spec 0 (effective_max feat_df max_num_feats)); [lia|].
      discriminate.
  - apply forward_selection_returns.
Qed.

(** C10 (as amended).  When the bound of the loop exceeds the number of
    columns and the table either has no column or can be scored,
    [forward_selection] ends on the first column of the emptied available
    frame and raises there.  When the bound is not positive (no column and
    the select-all value 0, or a negative value) the loop is not entered, and
    the call raises on the maximum of the empty score sequence. *)
Theorem forward_selection_beyond_columns (feat_df : DataFrame) (max_num_feats : Z) :
  (shape1 feat_df = 0%nat \/ (scorable y cv feat_df /\ well_formed feat_df) ->
   (Z.of_nat (shape1 feat_df) < effective_max feat_df max_num_feats)%Z ->
   forward_selection y model score_fn cv feat_df max_num_feats
   = Done (Raise IndexOutOfBounds))
  /\ ((effective_max feat_df max_num_feats <= 0)%Z ->
      forward_selection y model score_fn cv feat_df max_num_feats
      = Done (Raise EmptyReduction)).
Proof.
  split.
  - intros Hok Hm. rewrite forward_selection_unfold.
    rewrite select_loop_exhausts;
      [reflexivity | lia | | cbn [shape1 columns length Nat.add]; lia].
    destruct Hok as [Hnil | [Hsc Hwf]].
    + left. unfold shape1 in Hnil. now apply length_zero_iff_nil.
    + right. split; [exact Hsc | exact Hwf].
  - intros Hm. rewrite forward_selection_unfold. simpl.
    destruct (Z.ltb_spec 0 (effective_max feat_df max_num_feats)); [lia|].
    reflexivity.
Qed.

End LoopFacts.

(** *** Concrete runs of forward_selection *)

Lemma abc_scorable (cv : option Z) :
  cv = None \/ cv = Some 5%Z -> scorable y_abc cv abc_frame.
Proof. intros [-> | ->]; (split; [reflexivity | simpl; lia]). Qed.

Lemma abc_well_formed : well_formed abc_frame.
Proof. repeat constructor. Qed.

Lemma abc_keys_distinct : NoDup (column_keys abc_frame).
Proof.
  unfold column_keys. simpl.
  repeat constructor; simpl; intuition discriminate.
Qed.

(** Leave-one-out with the estimator that predicts zero: every trial on the
    five plots scores [-sqrt(11)], whatever the columns. *)
Lemma zero_regressor_score (df : DataFrame) :
  index df = 5%nat ->
  trial_score y_abc zero_regressor None (Some 5%Z) df = Ok (- sqrt 11).
Proof.
  intros Hn.
  rewrite trial_score_default by (split; [exact Hn | simpl; lia]).
  do 3 f_equal.
  unfold fold_mses, mean_squared_error, fold_predict, np_mean. simpl.
  unfold Rsqr. field.
Qed.

Lemma score_gt_irrefl (s : R) : score_gt s (Fin s) = false.
Proof. apply score_gt_fin_false. lra. Qed.

Ltac run_scan :=
  repeat (cbn [first_key columns bind scan fst best_score best_feat best_key];
          rewrite ?zero_regressor_score by reflexivity;
          rewrite ?score_gt_neg_inf, ?score_gt_irrefl).

(** All candidates tie, so each pass takes the first available column. *)
Lemma first_pass_on_abc :
  select_step y_abc zero_regressor None (Some 5%Z)
              {| index := 5; columns := [] |} [] abc_frame
  = Ok ({| index := 5; columns := [("A"%string, [1; 2; 3; 4; 5])] |},
        [Fin (- sqrt 11)],
        {| index := 5;
           columns := [("B"%string, [5; 4; 3; 2; 1]); ("C"%string, [1; 1; 1; 1; 1])] |}).
Proof.
  unfold select_step, abc_frame. run_scan.
  reflexivity.
Qed.

Lemma second_pass_on_abc :
  select_step y_abc zero_regressor None (Some 5%Z)
              {| index := 5; columns := [("A"%string, [1; 2; 3; 4; 5])] |}
              [Fin (- sqrt 11)]
              {| index := 5;
                 columns := [("B"%string, [5; 4; 3; 2; 1]);
                             ("C"%string, [1; 1; 1; 1; 1])] |}
  = Ok ({| index := 5;
           columns := [("A"%string, [1; 2; 3; 4; 5]); ("B"%string, [5; 4; 3; 2; 1])] |},
        [Fin (- sqrt 11); Fin (- sqrt 11)],
        {| index := 5; columns := [("C"%string, [1; 1; 1; 1; 1])] |}).
Proof.
  unfold select_step. run_scan.
  reflexivity.
Qed.

Lemma select_loop_continue (y : list R) (model : Estimator) (score_fn : option ScoreFn)
    (cv : option Z) (fuel : nat) (m : Z) (sel : DataFrame) (scores : list xfloat)
    (avail sel' : DataFrame) (scores' : list xfloat) (avail' : DataFrame) :
  select_step y model score_fn cv sel scores avail = Ok (sel', scores', avail') ->
  (Z.of_nat (shape1 sel) < m)%Z ->
  select_loop y model score_fn cv (S fuel) m sel scores avail
  = select_loop y model score_fn cv fuel m sel' scores' avail'.
Proof.
  intros Hstep Hlt. simpl.
  destruct (Z.ltb_spec (Z.of_nat (shape1 sel)) m); [|lia].
  now rewrite Hstep.
Qed.

Lemma select_loop_stop (y : list R) (model : Estimator) (score_fn : option ScoreFn)
    (cv : option Z) (fuel : nat) (m : Z) (sel : DataFrame) (scores : list xfloat)
    (avail : DataFrame) :
  (m <= Z.of_nat (shape1 sel))%Z ->
  select_loop y model score_fn cv fuel m sel scores avail = Done (Ok (sel, scores)).
Proof.
  intros Hge.
  destruct fuel; simpl; destruct (Z.ltb_spec (Z.of_nat (shape1 sel)) m);
    try lia; reflexivity.
Qed.

(** Two passes on the scenario table select [A], then [B]. *)
Lemma run_on_abc :
  forward_selection y_abc zero_regressor None (Some 5%Z) abc_frame 2
  = Done (Ok ({| index := 5;
                 columns := [("A"%string, [1; 2; 3; 4; 5]); ("B"%string, [5; 4; 3; 2; 1])] |},
              [Fin (- sqrt 11); Fin (- sqrt 11)])).
Proof.
  rewrite forward_selection_unfold.
  change (effective_max abc_frame 2) with 2%Z.
  change (shape1 abc_frame) with 3%nat. change (index abc_frame) with 5%nat.
  rewrite (select_loop_continue _ _ _ _ _ _ _ _ _ _ _ _ first_pass_on_abc)
    by (simpl; lia).
  rewrite (select_loop_continue _ _ _ _ _ _ _ _ _ _ _ _ second_pass_on_abc)
    by (simpl; lia).
  rewrite select_loop_stop by (simpl; lia).
  reflexivity.
Qed.

Lemma select_step_takes_first_best_witness :
  exists pre key vec post s,
    [("B"%string, [5; 4; 3; 2; 1]); ("C"%string, [1; 1; 1; 1; 1])]
    = pre ++ (key, vec) :: post
    /\ trial_score y_abc zero_regressor None (Some 5%Z)
         (concat_column {| index := 5; columns := [("A"%string, [1; 2; 3; 4; 5])] |}
                        (key, vec))
       = Ok s
    /\ Forall (scores_as y_abc zero_regressor None (Some 5%Z)
                 {| index := 5; columns := [("A"%string, [1; 2; 3; 4; 5])] |}
                 (fun s' => s' < s)) pre
    /\ Forall (scores_as y_abc zero_regressor None (Some 5%Z)
                 {| index := 5; columns := [("A"%string, [1; 2; 3; 4; 5])] |}
                 (fun s' => s' <= s)) post
    /\ [("A"%string, [1; 2; 3; 4; 5]); ("B"%string, [5; 4; 3; 2; 1])]
       = [("A"%string, [1; 2; 3; 4; 5])] ++ [(key, vec)]
    /\ [Fin (- sqrt 11); Fin (- sqrt 11)] = [Fin (- sqrt 11)] ++ [Fin s]
    /\ [("C"%string, [1; 1; 1; 1; 1])] = pre ++ post.
Proof.
  apply (select_step_takes_first_best y_abc zero_regressor None (Some 5%Z)
           abc_frame _ _ _ _ _ _ abc_keys_distinct
           (iteration_next _ _ _ _ _ _ _ _ _ _ _
              (iteration_first _ _ _ _ _) first_pass_on_abc)
           second_pass_on_abc).
Defined.

Lemma forward_selection_result_witness :
  Z.of_nat (length [Fin (- sqrt 11); Fin (- sqrt 11)]) = effective_max abc_frame 2
  /\ shape1 {| index := 5;
               columns := [("A"%string, [1; 2; 3; 4; 5]);
                           ("B"%string, [5; 4; 3; 2; 1])] |}
     = length [Fin (- sqrt 11); Fin (- sqrt 11)]
  /\ NoDup ["A"%string; "B"%string]
  /\ incl [("A"%string, [1; 2; 3; 4; 5]); ("B"%string, [5; 4; 3; 2; 1])]
          (columns abc_frame)
  /\ incl ["A"%string; "B"%string] (column_keys abc_frame).
Proof.
  apply (proj1 (forward_selection_result y_abc zero_regressor None (Some 5%Z)
                  abc_frame 2) _ _ run_on_abc).
Defined.

(** C10, as stated, fails on a table without columns called with the
    select-all value: the bound becomes 0, the loop is skipped, and the call
    raises on the empty score sequence, not on the first column of an empty
    frame. *)
Lemma no_columns_skips_the_loop :
  shape1 no_columns = 0%nat
  /\ forward_selection y_line zero_regressor None None no_columns 0
     = Done (Raise EmptyReduction)
  /\ forward_selection y_line zero_regressor None None no_columns 0
     <> Done (Raise IndexOutOfBounds).
Proof.
  split; [reflexivity|].
  assert (H : forward_selection y_line zero_regressor None None no_columns 0
              = Done (Raise EmptyReduction)) by reflexivity.
  split; [exact H|]. rewrite H. discriminate.
Qed.

Lemma forward_selection_beyond_columns_witness :
  forward_selection y_abc zero_regressor None None abc_frame 4
  = Done (Raise IndexOutOfBounds)
  /\ forward_selection y_abc zero_regressor None None abc_frame (-1)
     = Done (Raise EmptyReduction).
Proof.
  destruct (forward_selection_beyond_columns y_abc zero_regressor None None abc_frame 4)
    as [Hbeyond _].
  destruct (forward_selection_beyond_columns y_abc zero_regressor None None abc_frame (-1))
    as [_ Hskip].
  split.
  - apply Hbeyond.
    + right. split; [apply (abc_scorable None); now left | apply abc_well_formed].
    + unfold effective_max, shape1. simpl. lia.
  - apply Hskip. unfold effective_max. simpl. lia.
Defined.

(** ** ranking *)

Section RankingFacts.

Variable y : list R.
Variable model : Estimator.
Variable score_fn : option ScoreFn.
Variable cv : option Z.

#[local] Abbreviation single_score n c :=
  (trial_score y model score_fn cv (frame_of n c)).

Lemma ranking_loop_scores (n : nat) (items : list Column) (acc scores : list R) :
  ranking_loop y model score_fn cv n items acc = Ok scores ->
  exists ss, scores = acc ++ ss
             /\ Forall2 (fun c s => single_score n c = Ok s) items ss.
Proof.
  revert acc.
  induction items as [|c rest IH]; intros acc Hloop; simpl in Hloop.
  - injection Hloop as <-. exists []. split; [now rewrite app_nil_r | constructor].
  - bind_inv Hloop s Hs.
    destruct (IH _ Hloop) as [ss [-> Hall]].
    exists (s :: ss). split; [now rewrite <- app_assoc | now constructor].
Qed.

Lemma ranking_loop_returns (n : nat) (items : list Column) (acc : list R) :
  (forall c, scorable y cv (frame_of n c)) ->
  exists ss, ranking_loop y model score_fn cv n items acc = Ok (acc ++ ss)
             /\ length ss = length items.
Proof.
  intros Hsc. revert acc.
  induction items as [|c rest IH]; intros acc; simpl.
  - exists []. now rewrite app_nil_r.
  - destruct (trial_score_returns y model score_fn cv (frame_of n c) (Hsc c))
      as [s Hs].
    rewrite Hs. cbn [bind].
    destruct (IH (acc ++ [s])) as [ss [Hloop Hlen]].
    exists (s :: ss). split; [now rewrite Hloop, <- app_assoc | simpl; lia].
Qed.

Lemma ranking_scores (feat_df : DataFrame) (scores : list R) :
  ranking y model score_fn cv feat_df = Ok scores ->
  Forall2 (fun c s => single_score (index feat_df) c = Ok s) (columns feat_df) scores.
Proof.
  unfold ranking. intros Hrun.
  bind_inv Hrun feat_scores Hloop. bind_inv Hrun best Hmax.
  injection Hrun as <-.
  apply ranking_loop_scores in Hloop. destruct Hloop as [ss [-> Hall]]. exact Hall.
Qed.

Lemma ranking_returns (feat_df : DataFrame) :
  scorable y cv feat_df ->
  columns feat_df <> [] ->
  exists scores, ranking y model score_fn cv feat_df = Ok scores.
Proof.
  intros Hsc Hne. unfold ranking.
  destruct (ranking_loop_returns (index feat_df) (columns feat_df) [])
    as [ss [Hloop Hlen]].
  { intros c. now apply (scorable_index y cv feat_df). }
  rewrite Hloop. simpl app. cbn [bind].
  destruct ss as [|s ss].
  - destruct (columns feat_df); [contradiction | discriminate].
  - cbn [np_max bind]. eauto.
Qed.

(** C5 (as amended).  Whenever [ranking] returns, the result is the list of
    bare scores, one for each column of the input in the order of the
    columns, each being the cross-validated score of the table made of that
    column alone.  No identifier is attached and nothing is sorted. *)
Theorem ranking_scores_each_column_alone (feat_df : DataFrame) (scores : list R) :
  ranking y model score_fn cv feat_df = Ok scores ->
  map Ok scores
  = map (fun c => trial_score y model score_fn cv (frame_of (index feat_df) c))
        (columns feat_df).
Proof.
  intros Hrun. apply ranking_scores in Hrun.
  induction Hrun as [|c s cols ss Hs _ IH]; simpl.
  - reflexivity.
  - now rewrite Hs, IH.
Qed.

(** C9.  Whenever [ranking] returns, there is exactly one score per column
    of the input, and the score at position [i] is the cross-validated score
    of the table made of column [i] alone.  It does return on every table
    with at least one column that can be scored. *)
Theorem ranking_in_column_order (feat_df : DataFrame) :
  (forall scores,
      ranking y model score_fn cv feat_df = Ok scores ->
      length scores = shape1 feat_df
      /\ forall i c, nth_error (columns feat_df) i = Some c ->
                     exists s, nth_error scores i = Some s
                               /\ single_score (index feat_df) c = Ok s)
  /\ (scorable y cv feat_df ->
      columns feat_df <> [] ->
      exists scores, ranking y model score_fn cv feat_df = Ok scores).
Proof.
  split; [|apply ranking_returns].
  intros scores Hrun. apply ranking_scores in Hrun.
  unfold shape1. split.
  - symmetry. apply (Forall2_length Hrun).
  - induction Hrun as [|c0 s0 cols ss Hs _ IH]; intros i c Hi.
    + destruct i; discriminate.
    + destruct i as [|i]; simpl in Hi |- *.
      * injection Hi as <-. now exists s0.
      * now apply IH.
Qed.

End RankingFacts.

(** *** A concrete ranking *)

(** The least-squares line through two points with distinct abscissae. *)
Lemma least_squares_two_points (x1 y1 x2 y2 x : R) :
  x1 <> x2 ->
  least_squares_line [[x1]; [x2]] [y1; y2] [x]
  = y1 + (y2 - y1) / (x2 - x1) * (x - x1).
Proof.
  intros H. unfold least_squares_line, np_mean. simpl.
  destruct (Req_EM_T _ _) as [E|E].
  - exfalso.
    assert ((x1 - x2) * (x1 - x2) = 0) by (field_simplify in E; nra). nra.
  - field. split; [|lra]. nra.
Qed.

(** When the feature does not vary, the prediction is the mean target. *)
Lemma least_squares_flat (x1 y1 y2 x : R) :
  least_squares_line [[x1]; [x1]] [y1; y2] [x] = (y1 + y2) / 2.
Proof.
  unfold least_squares_line, np_mean. simpl.
  destruct (Req_EM_T _ _) as [E|E].
  - field.
  - exfalso. apply E. field.
Qed.

Lemma y_line_scorable (c : Column) : scorable y_line None (frame_of 3 c).
Proof. split; [reflexivity | simpl; lia]. Qed.

Lemma score_of_b :
  trial_score y_line linear_regression_1d None None
              (frame_of 3 ("b"%string, [1; 1; 2]))
  = Ok (- sqrt (17 / 12)).
Proof.
  rewrite trial_score_default by apply y_line_scorable.
  do 3 f_equal.
  unfold fold_mses, mean_squared_error, fold_predict.
  simpl. unfold row. simpl.
  rewrite !least_squares_two_points by lra. rewrite least_squares_flat.
  unfold np_mean, Rsqr. simpl. field.
Qed.

Lemma score_of_a :
  trial_score y_line linear_regression_1d None None
              (frame_of 3 ("a"%string, [1; 2; 3]))
  = Ok (- sqrt 0).
Proof.
  rewrite trial_score_default by apply y_line_scorable.
  do 3 f_equal.
  unfold fold_mses, mean_squared_error, fold_predict.
  simpl. unfold row. simpl.
  rewrite !least_squares_two_points by lra.
  unfold np_mean, Rsqr. simpl. field.
Qed.

Lemma ranking_unsorted_frame :
  ranking y_line linear_regression_1d None None unsorted_frame
  = Ok [- sqrt (17 / 12); - sqrt 0].
Proof.
  unfold ranking, unsorted_frame. cbn [ranking_loop columns index].
  rewrite score_of_b. cbn [bind ranking_loop]. rewrite score_of_a. reflexivity.
Qed.

(** C5, as stated, fails: with leave-one-out linear regression on three
    plots, the table listing column [b] before the perfectly fitting column
    [a] is ranked as [-sqrt(17/12)], then [0]: the output follows the columns
    and is not in descending order of score. *)
Lemma ranking_output_not_descending :
  ranking y_line linear_regression_1d None None unsorted_frame
  = Ok [- sqrt (17 / 12); - sqrt 0]
  /\ ~ descending [- sqrt (17 / 12); - sqrt 0].
Proof.
  split; [apply ranking_unsorted_frame|].
  unfold descending. intros Hsorted.
  inversion Hsorted as [|? ? _ Hhd]; subst.
  inversion Hhd as [|? ? Hge]; subst.
  rewrite sqrt_0 in Hge.
  assert (0 < sqrt (17 / 12)) by (apply sqrt_lt_R0; lra).
  lra.
Qed.

Lemma ranking_scores_each_column_alone_witness :
  map Ok [- sqrt (17 / 12); - sqrt 0]
  = map (fun c => trial_score y_line linear_regression_1d None None
                              (frame_of (index unsorted_frame) c))
        (columns unsorted_frame).
Proof.
  apply (ranking_scores_each_column_alone y_line linear_regression_1d None None
           unsorted_frame _ ranking_unsorted_frame).
Defined.

Lemma ranking_in_column_order_witness :
  exists scores,
    ranking y_abc linear_regression_1d None None abc_frame = Ok scores
    /\ length scores = shape1 abc_frame
    /\ forall i c, nth_error (columns abc_frame) i = Some c ->
                   exists s, nth_error scores i = Some s
                             /\ trial_score y_abc linear_regression_1d None None
                                            (frame_of (index abc_frame) c) = Ok s.
Proof.
  destruct (ranking_in_column_order y_abc linear_regression_1d None None abc_frame)
    as [Horder Hruns].
  destruct Hruns as [scores Hrun].
  - apply (abc_scorable None). now left.
  - discriminate.
  - exists scores. split; [exact Hrun | apply (Horder scores Hrun)].
Defined.

(** ** Sorting by position *)

Section ArgSort.

Variable key : nat -> R.

#[local] Abbreviation key_le := (fun i j : nat => key i <= key j).

Lemma insert_by_perm (i : nat) (l : list nat) :
  Permutation (insert_by key i l) (i :: l).
Proof.
  induction l as [|j l IH]; simpl.
  - reflexivity.
  - destruct (Rle_dec (key i) (key j)).
    + reflexivity.
    + rewrite IH. apply perm_swap.
Qed.

Lemma insert_by_sorted (i : nat) (l : list nat) :
  StronglySorted key_le l -> StronglySorted key_le (insert_by key i l).
Proof.
  induction 1 as [|j l Hsorted IH Hall]; simpl.
  - repeat constructor.
  - destruct (Rle_dec (key i) (key j)) as [Hle|Hgt].
    + constructor; [now constructor|].
      constructor; [exact Hle|].
      eapply Forall_impl; [|exact Hall]. simpl. intros a Ha. lra.
    + constructor; [exact IH|].
      rewrite insert_by_perm.
      constructor; [simpl; lra | exact Hall].
Qed.

Lemma sort_positions_perm (l : list nat) :
  Permutation (fold_right (insert_by key) [] l) l.
Proof.
  induction l as [|i l IH]; simpl.
  - reflexivity.
  - rewrite insert_by_perm. now constructor.
Qed.

Lemma sort_positions_sorted (l : list nat) :
  StronglySorted key_le (fold_right (insert_by key) [] l).
Proof.
  induction l as [|i l IH]; simpl.
  - constructor.
  - now apply insert_by_sorted.
Qed.

End ArgSort.

Lemma np_argsort_perm (a : list R) :
  Permutation (np_argsort a) (seq 0 (length a)).
Proof. apply sort_positions_perm. Qed.

Lemma np_argsort_sorted (a : list R) :
  StronglySorted (fun i j => nth i a 0 <= nth j a 0) (np_argsort a).
Proof. apply (sort_positions_sorted (fun i => nth i a 0)). Qed.

Lemma np_argsort_length (a : list R) : length (np_argsort a) = length a.
Proof.
  rewrite (Permutation_length (np_argsort_perm a)). apply length_seq.
Qed.

Lemma np_argsort_range (a : list R) (i : nat) :
  In i (np_argsort a) <-> (i < length a)%nat.
Proof.
  split; intros H.
  - apply (Permutation_in _ (np_argsort_perm a)) in H.
    apply in_seq in H. lia.
  - apply (Permutation_in _ (Permutation_sym (np_argsort_perm a))).
    apply in_seq. lia.
Qed.

Lemma take_all {A : Type} (d : A) (l : list A) :
  take d l (seq 0 (length l)) = l.
Proof.
  unfold take.
  apply (nth_ext _ _ d d).
  - now rewrite length_map, length_seq.
  - intros n Hn. rewrite length_map, length_seq in Hn.
    rewrite (nth_indep _ d (nth 0 l d))
      by (now rewrite length_map, length_seq).
    rewrite (map_nth (fun i => nth i l d)), seq_nth by exact Hn.
    reflexivity.
Qed.

(** Indexing by a permutation of the positions permutes the list. *)
Lemma take_perm {A : Type} (d : A) (l : list A) (idx : list nat) :
  Permutation idx (seq 0 (length l)) -> Permutation (take d l idx) l.
Proof.
  intros H. rewrite <- (take_all d l) at 2.
  unfold take. now apply Permutation_map.
Qed.

Lemma nth_opp (l : list R) (i : nat) : nth i (map Ropp l) 0 = - nth i l 0.
Proof.
  rewrite <- Ropp_0 at 1. apply (map_nth Ropp).
Qed.

(** Reordering scores by [np.argsort(-scores)] puts them in descending
    order. *)
Lemma argsort_opp_descending (scores : list R) :
  descending (take 0 scores (np_argsort (map Ropp scores))).
Proof.
  unfold descending, take.
  pose proof (np_argsort_sorted (map Ropp scores)) as Hs.
  apply StronglySorted_Sorted.
  induction Hs as [|i l _ IH Hall]; simpl; constructor.
  - exact IH.
  - rewrite Forall_map. eapply Forall_impl; [|exact Hall].
    simpl. intros j Hj. rewrite !nth_opp in Hj. lra.
Qed.

(** ** numpy reductions and label bookkeeping *)

Lemma fold_left_Rmax (rest : list R) (v : R) :
  (fold_left Rmax rest v = v \/ In (fold_left Rmax rest v) rest)
  /\ v <= fold_left Rmax rest v
  /\ Forall (fun w => w <= fold_left Rmax rest v) rest.
Proof.
  revert v.
  induction rest as [|w rest IH]; intros v; simpl.
  - repeat split; [now left | lra | constructor].
  - destruct (IH (Rmax v w)) as (Hin & Hle & Hall).
    pose proof (Rmax_l v w). pose proof (Rmax_r v w).
    repeat split.
    + destruct Hin as [Heq | Hin]; [|now right; right].
      rewrite Heq. unfold Rmax. destruct (Rle_dec v w); [right; now left | now left].
    + lra.
    + constructor; [lra | exact Hall].
Qed.

Lemma np_max_is_max (l : list R) (m : R) :
  np_max l = Ok m -> In m l /\ Forall (fun v => v <= m) l.
Proof.
  destruct l as [|v rest]; simpl; intros H; [discriminate|].
  injection H as <-.
  destruct (fold_left_Rmax rest v) as (Hin & Hle & Hall).
  split; [|now constructor].
  destruct Hin as [Heq | Hin]; [left; now rewrite Heq | now right].
Qed.

Lemma np_max_returns (l : list R) : l <> [] -> exists m, np_max l = Ok m.
Proof. destruct l; [contradiction | simpl; eauto]. Qed.

Lemma insert_Z_in (v w : Z) (l : list Z) :
  In w (insert_Z v l) <-> w = v \/ In w l.
Proof.
  induction l as [|u l IH]; simpl.
  - intuition.
  - destruct (Z.ltb_spec v u); simpl; [intuition|].
    destruct (Z.eqb_spec v u); simpl; [subst; intuition|].
    rewrite IH. intuition.
Qed.

Lemma insert_Z_sorted (v : Z) (l : list Z) :
  StronglySorted Z.lt l -> StronglySorted Z.lt (insert_Z v l).
Proof.
  induction 1 as [|u l Hs IH Hall]; simpl.
  - repeat constructor.
  - destruct (Z.ltb_spec v u).
    + constructor; [now constructor|].
      constructor; [assumption|].
      eapply Forall_impl; [|exact Hall]. simpl. lia.
    + destruct (Z.eqb_spec v u); [now constructor|].
      constructor; [exact IH|].
      apply Forall_forall. intros w Hw. apply insert_Z_in in Hw.
      rewrite Forall_forall in Hall.
      destruct Hw as [-> | Hw]; [lia | now apply Hall].
Qed.

Lemma np_unique_in (labels : list Z) (v : Z) :
  In v (np_unique labels) <-> In v labels.
Proof.
  induction labels as [|w labels IH]; simpl; [tauto|].
  rewrite insert_Z_in, IH. intuition.
Qed.

Lemma np_unique_sorted (labels : list Z) : StronglySorted Z.lt (np_unique labels).
Proof.
  induction labels as [|w labels IH]; simpl; [constructor|].
  now apply insert_Z_sorted.
Qed.

Lemma np_unique_distinct (labels : list Z) : NoDup (np_unique labels).
Proof.
  pose proof (np_unique_sorted labels) as Hs.
  induction Hs as [|u l _ IH Hall]; constructor; [|exact IH].
  intros Hin. rewrite Forall_forall in Hall. specialize (Hall u Hin). lia.
Qed.

Lemma label_positions_in (labels : list Z) (label : Z) (i : nat) :
  In i (label_positions labels label)
  <-> (i < length labels)%nat /\ nth i labels 0%Z = label.
Proof.
  unfold label_positions. rewrite filter_In, in_seq, Z.eqb_eq. intuition lia.
Qed.

Lemma label_positions_nonempty (labels : list Z) (label : Z) :
  In label labels -> label_positions labels label <> [].
Proof.
  intros Hin Hnil.
  destruct (In_nth _ _ 0%Z Hin) as [i [Hi Hnth]].
  assert (H : In i (label_positions labels label))
    by (apply label_positions_in; auto).
  rewrite Hnil in H. exact H.
Qed.

Lemma rowwise_dcov_values (xs : list (list R)) (y dy : list R) :
  rowwise_dcov xs y = Ok dy ->
  dy = map (fun x => distance_covariance_sqr x y) xs.
Proof.
  revert dy.
  induction xs as [|x xs IH]; simpl; intros dy H.
  - now injection H as <-.
  - destruct (negb (length x =? length y)%nat); [discriminate|].
    bind_inv H dys Hdys. injection H as <-.
    now rewrite (IH _ Hdys).
Qed.

Lemma rowwise_dcov_returns (xs : list (list R)) (y : list R) :
  Forall (fun x => length x = length y) xs ->
  exists dy, rowwise_dcov xs y = Ok dy.
Proof.
  induction 1 as [|x xs Hx _ [dy IH]]; simpl.
  - eauto.
  - rewrite Hx, Nat.eqb_refl. simpl. rewrite IH. simpl. eauto.
Qed.

Lemma take_map {A B : Type} (f : A -> B) (d : A) (l : list A) (idx : list nat) :
  map f (take d l idx) = take (f d) (map f l) idx.
Proof.
  unfold take. rewrite map_map.
  apply map_ext. intros i. symmetry. apply map_nth.
Qed.

Lemma take_in {A : Type} (d : A) (l : list A) (idx : list nat) (v : A) :
  Forall (fun i => (i < length l)%nat) idx ->
  In v (take d l idx) -> In v l.
Proof.
  intros Hidx Hin. unfold take in Hin.
  apply in_map_iff in Hin. destruct Hin as [i [<- Hi]].
  rewrite Forall_forall in Hidx. now apply nth_In, Hidx.
Qed.

(** ** fcr: the pick of one cluster *)

Section ClusterFacts.

Variable sc_feat_T : list (list R).
Variable sc_y : list R.
Variable labels : list Z.

#[local] Abbreviation dcov_at j :=
  (distance_covariance_sqr (nth j sc_feat_T []) sc_y).

Lemma cluster_dy (label_idx : list nat) (dy : list R) :
  rowwise_dcov (take [] sc_feat_T label_idx) sc_y = Ok dy ->
  dy = map (fun j => dcov_at j) label_idx.
Proof.
  intros H. apply rowwise_dcov_values in H.
  unfold take in H. now rewrite map_map in H.
Qed.

Lemma cluster_dy_nth (label_idx : list nat) (p : nat) :
  (p < length label_idx)%nat ->
  nth p (map (fun j => dcov_at j) label_idx) 0 = dcov_at (nth p label_idx 0%nat).
Proof.
  intros Hp.
  rewrite (nth_indep _ 0 (dcov_at 0%nat)) by (now rewrite length_map).
  apply (map_nth (fun j => dcov_at j)).
Qed.

(** The position picked for a cluster is a member with the largest squared
    distance covariance, and the score of the cluster is that value. *)
Lemma cluster_pick_represents (label : Z) (rep : nat) (score : R) :
  cluster_pick sc_feat_T sc_y labels label = Ok (rep, score) ->
  represents sc_feat_T sc_y labels label rep score.
Proof.
  unfold cluster_pick. intros H.
  bind_inv H dy Hdy. bind_inv H rep0 Hrep. bind_inv H score0 Hscore.
  injection H as <- <-.
  apply cluster_dy in Hdy.
  set (label_idx := label_positions labels label) in *.
  assert (Hlen : length dy = length label_idx) by (subst dy; apply length_map).
  pose proof (np_argsort_sorted (map Ropp dy)) as Hsorted.
  pose proof (np_argsort_range (map Ropp dy)) as Hrange.
  destruct (np_argsort (map Ropp dy)) as [|i0 others] eqn:Hsort;
    [discriminate|].
  simpl in Hrep. injection Hrep as <-.
  assert (Hi0 : (i0 < length label_idx)%nat).
  { rewrite <- Hlen, <- (length_map Ropp). apply Hrange. now left. }
  assert (Hbest : forall p, (p < length label_idx)%nat -> nth p dy 0 <= nth i0 dy 0).
  { intros p Hp.
    assert (Hin : In p (i0 :: others))
      by (apply Hrange; rewrite length_map; lia).
    inversion Hsorted as [|? ? _ Hall]; subst.
    destruct Hin as [<- | Hin]; [lra|].
    rewrite Forall_forall in Hall. specialize (Hall p Hin). simpl in Hall.
    rewrite !nth_opp in Hall. lra. }
  apply np_max_is_max in Hscore. destruct Hscore as [Hin Hmax].
  assert (Hscore : score0 = nth i0 dy 0).
  { apply Rle_antisym.
    - destruct (In_nth _ _ 0 Hin) as [p [Hp <-]]. apply Hbest. lia.
    - rewrite Forall_forall in Hmax. apply Hmax, nth_In. lia. }
  assert (Hmember : In (nth i0 label_idx 0%nat) label_idx) by now apply nth_In.
  apply label_positions_in in Hmember. destruct Hmember as [Hlt Hlabel].
  repeat split; try assumption.
  - rewrite Hscore, Hdy. now apply cluster_dy_nth.
  - intros j Hj Hjl.
    assert (Hjin : In j label_idx) by (apply label_positions_in; auto).
    destruct (In_nth _ _ 0%nat Hjin) as [p [Hp Hnth]].
    rewrite Hscore. rewrite <- Hnth.
    rewrite <- (cluster_dy_nth label_idx p Hp), <- Hdy. now apply Hbest.
Qed.

Lemma cluster_pick_returns (label : Z) :
  In label labels ->
  Forall (fun x => length x = length sc_y) sc_feat_T ->
  (length labels <= length sc_feat_T)%nat ->
  exists rep score, cluster_pick sc_feat_T sc_y labels label = Ok (rep, score).
Proof.
  intros Hin Hlens Hcount. unfold cluster_pick.
  set (label_idx := label_positions labels label).
  destruct (rowwise_dcov_returns (take [] sc_feat_T label_idx) sc_y) as [dy Hdy].
  { apply Forall_forall. intros x Hx.
    unfold take in Hx. apply in_map_iff in Hx. destruct Hx as [j [<- Hj]].
    apply label_positions_in in Hj.
    rewrite Forall_forall in Hlens. apply Hlens, nth_In. lia. }
  rewrite Hdy. cbn [bind].
  apply cluster_dy in Hdy.
  assert (Hne : label_idx <> []) by now apply label_positions_nonempty.
  assert (Hlen : length dy = length label_idx) by (subst dy; apply length_map).
  assert (Hsort : np_argsort (map Ropp dy) <> []).
  { intros Hnil. apply (f_equal (@length nat)) in Hnil.
    rewrite np_argsort_length, length_map, Hlen in Hnil.
    destruct label_idx; [contradiction | discriminate]. }
  destruct (np_argsort (map Ropp dy)) as [|i0 others]; [contradiction|].
  cbn [take map first_index bind].
  destruct (np_max_returns dy) as [m Hm].
  { intros Hnil. rewrite Hnil in Hlen. destruct label_idx; [contradiction | discriminate]. }
  rewrite Hm. cbn [bind]. eauto.
Qed.

(** The loop over the labels: one pick per label, appended in label order. *)
Lemma cluster_loop_picks (todo : list Z) (selected : list nat) (scores : list R)
    (selected' : list nat) (scores' : list R) :
  cluster_loop sc_feat_T sc_y labels todo selected scores = Ok (selected', scores') ->
  exists picks : list (nat * R),
    selected' = selected ++ map fst picks
    /\ scores' = scores ++ map snd picks
    /\ Forall2 (fun label pick =>
                  represents sc_feat_T sc_y labels label (fst pick) (snd pick))
               todo picks.
Proof.
  revert selected scores.
  induction todo as [|label rest IH]; intros selected scores H; simpl in H.
  - injection H as <- <-. exists []. now rewrite !app_nil_r.
  - bind_inv H pick Hpick. destruct pick as [rep score].
    destruct (IH _ _ H) as (picks & -> & -> & Hall).
    exists ((rep, score) :: picks). simpl.
    rewrite <- !app_assoc. repeat split.
    constructor; [|exact Hall]. now apply cluster_pick_represents.
Qed.

Lemma cluster_loop_returns (todo : list Z) (selected : list nat) (scores : list R) :
  Forall (fun label => In label labels) todo ->
  Forall (fun x => length x = length sc_y) sc_feat_T ->
  (length labels <= length sc_feat_T)%nat ->
  exists r, cluster_loop sc_feat_T sc_y labels todo selected scores = Ok r.
Proof.
  intros Htodo Hlens Hcount. revert selected scores.
  induction Htodo as [|label rest Hin _ IH]; intros selected scores; simpl.
  - eauto.
  - destruct (cluster_pick_returns label Hin Hlens Hcount) as (rep & score & Hpick).
    rewrite Hpick. cbn [bind]. apply IH.
Qed.

End ClusterFacts.

(** ** fcr as a whole *)

Lemma Forall2_combine {A B : Type} (P : A -> B -> Prop) (l1 : list A) (l2 : list B) :
  Forall2 P l1 l2 ->
  map fst (combine l1 l2) = l1
  /\ map snd (combine l1 l2) = l2
  /\ Forall (fun p => P (fst p) (snd p)) (combine l1 l2).
Proof.
  induction 1 as [|a b l1 l2 Hab _ (IH1 & IH2 & IH3)]; simpl.
  - repeat split; constructor.
  - rewrite IH1, IH2. repeat split. now constructor.
Qed.

Lemma iloc_columns_picks (cols : list Column) (idx : list nat) (picked : list Column) :
  iloc_columns cols idx = Ok picked ->
  Forall2 (fun i c => nth_error cols i = Some c) idx picked.
Proof.
  revert picked.
  induction idx as [|i idx IH]; simpl; intros picked H.
  - injection H as <-. constructor.
  - destruct (nth_error cols i) as [c|] eqn:Hc; [|discriminate].
    bind_inv H rest Hrest. injection H as <-.
    constructor; [exact Hc | now apply IH].
Qed.

Lemma iloc_columns_returns (cols : list Column) (idx : list nat) :
  Forall (fun i => (i < length cols)%nat) idx ->
  exists picked, iloc_columns cols idx = Ok picked.
Proof.
  induction 1 as [|i idx Hi _ [picked IH]]; simpl.
  - eauto.
  - destruct (nth_error cols i) as [c|] eqn:Hc.
    + rewrite IH. cbn [bind]. eauto.
    + apply nth_error_None in Hc. lia.
Qed.

Lemma slice_to_count {A : Type} (m : option Z) (l : list A) :
  is_count m -> slice_to m l = truncate m l.
Proof.
  destruct m as [k|]; simpl; [|reflexivity].
  intros Hk. destruct (Z.ltb_spec k 0); [lia | reflexivity].
Qed.

Lemma firstn_in {A : Type} (n : nat) (l : list A) (v : A) :
  In v (firstn n l) -> In v l.
Proof.
  intros H. rewrite <- (firstn_skipn n l). apply in_or_app. now left.
Qed.

Lemma slice_to_in {A : Type} (m : option Z) (l : list A) (v : A) :
  In v (slice_to m l) -> In v l.
Proof.
  destruct m as [k|]; simpl; [|auto].
  destruct (k <? 0)%Z; apply firstn_in.
Qed.

Lemma standardize_length (l : list R) : length (standardize l) = length l.
Proof. apply length_map. Qed.

(** On a table with rows and columns and a non-empty target, [fcr] is the
    loop over the clusters followed by the ranking of the picks. *)
Lemma fcr_unfold (ap : Clustering) (feat_df : DataFrame) (y : list R)
    (max_num_feats : option Z) :
  index feat_df <> 0%nat -> columns feat_df <> [] -> y <> [] ->
  fcr ap feat_df y max_num_feats
  = ('(selected_feats, cluster_scores) <-
        cluster_loop (standardized feat_df) (standardize y) (fcr_labels ap feat_df)
                     (np_unique (fcr_labels ap feat_df)) [] [] ;;
     let rank_feat_idx := np_argsort (map Ropp cluster_scores) in
     picked <- iloc_columns (columns feat_df)
                 (slice_to max_num_feats (take 0%nat selected_feats rank_feat_idx)) ;;
     Ok ({| index := index feat_df; columns := picked |},
         slice_to max_num_feats (take 0 cluster_scores rank_feat_idx))).
Proof.
  intros Hrows Hcols Hy. unfold fcr, fit_transform, fcr_labels, standardized.
  destruct (index feat_df); [contradiction|].
  destruct (columns feat_df); [contradiction|].
  destruct y; [contradiction|].
  reflexivity.
Qed.

Lemma fcr_inputs (ap : Clustering) (feat_df : DataFrame) (y : list R)
    (max_num_feats : option Z) (r : DataFrame * list R) :
  fcr ap feat_df y max_num_feats = Ok r ->
  index feat_df <> 0%nat /\ columns feat_df <> [] /\ y <> [].
Proof.
  unfold fcr, fit_transform. intros H.
  destruct (index feat_df); [discriminate|].
  destruct (columns feat_df); [discriminate|].
  destruct y; [discriminate|].
  repeat split; discriminate.
Qed.

(** The picks of the clusters, reordered as [fcr] returns them. *)
Lemma fcr_ranked_picks (ap : Clustering) (feat_df : DataFrame) (y : list R)
    (max_num_feats : option Z) (sel : DataFrame) (scores : list R) :
  fcr ap feat_df y max_num_feats = Ok (sel, scores) ->
  exists ranked : list Pick,
    Permutation (map pick_label ranked) (np_unique (fcr_labels ap feat_df))
    /\ Forall (fun t => represents (standardized feat_df) (standardize y)
                          (fcr_labels ap feat_df)
                          (pick_label t) (pick_position t) (pick_score t))
              ranked
    /\ descending (map pick_score ranked)
    /\ iloc_columns (columns feat_df)
         (slice_to max_num_feats (map pick_position ranked)) = Ok (columns sel)
    /\ scores = slice_to max_num_feats (map pick_score ranked).
Proof.
  intros Hrun.
  destruct (fcr_inputs _ _ _ _ _ Hrun) as (Hrows & Hcols & Hy).
  rewrite fcr_unfold in Hrun by assumption.
  bind_inv Hrun loop_out Hloop. destruct loop_out as [selected cluster_scores].
  cbn zeta in Hrun. bind_inv Hrun picked Hpicked. injection Hrun as <- <-.
  apply cluster_loop_picks in Hloop.
  destruct Hloop as (picks & Hsel & Hsc & Hall). simpl in Hsel, Hsc.
  destruct (Forall2_combine _ _ _ Hall) as (Hfst & Hsnd & Hrep).
  set (table := combine (np_unique (fcr_labels ap feat_df)) picks) in *.
  set (rank := np_argsort (map Ropp cluster_scores)) in *.
  assert (Hlen : length table = length cluster_scores).
  { rewrite Hsc, length_map, <- (length_map snd table), Hsnd. reflexivity. }
  assert (Hperm : Permutation (take (0%Z, (0%nat, 0)) table rank) table).
  { apply take_perm. rewrite Hlen, <- (length_map Ropp). apply np_argsort_perm. }
  exists (take (0%Z, (0%nat, 0)) table rank).
  assert (Hpos : map pick_position (take (0%Z, (0%nat, 0)) table rank)
                 = take 0%nat selected rank).
  { rewrite (take_map pick_position). simpl. f_equal.
    rewrite Hsel, <- Hsnd, map_map. reflexivity. }
  assert (Hscore : map pick_score (take (0%Z, (0%nat, 0)) table rank)
                   = take 0 cluster_scores rank).
  { rewrite (take_map pick_score). simpl. f_equal.
    rewrite Hsc, <- Hsnd, map_map. reflexivity. }
  rewrite Hpos, Hscore. simpl.
  repeat split.
  - rewrite <- Hfst. now apply Permutation_map.
  - rewrite Hperm. exact Hrep.
  - apply argsort_opp_descending.
  - exact Hpicked.
Qed.

Lemma fcr_returns (ap : Clustering) (feat_df : DataFrame) (y : list R)
    (max_num_feats : option Z) :
  index feat_df <> 0%nat ->
  columns feat_df <> [] ->
  well_formed feat_df ->
  length y = index feat_df ->
  length (fcr_labels ap feat_df) = shape1 feat_df ->
  exists r, fcr ap feat_df y max_num_feats = Ok r.
Proof.
  intros Hrows Hcols Hwf Hy Hlabels.
  assert (Hyne : y <> []) by (intros ->; simpl in Hy; congruence).
  rewrite fcr_unfold by assumption.
  assert (Hcount : length (standardized feat_df) = shape1 feat_df)
    by (unfold standardized, shape1; now rewrite !length_map).
  destruct (cluster_loop_returns (standardized feat_df) (standardize y)
              (fcr_labels ap feat_df) (np_unique (fcr_labels ap feat_df)) [] [])
    as [[selected cluster_scores] Hloop].
  - apply Forall_forall. intros label. apply np_unique_in.
  - unfold standardized. rewrite !Forall_map.
    eapply Forall_impl; [|exact Hwf].
    intros c Hc. simpl in Hc. now rewrite !standardize_length, Hc, Hy.
  - lia.
  - rewrite Hloop. cbn [bind]. cbn zeta.
    apply cluster_loop_picks in Hloop.
    destruct Hloop as (picks & Hsel & Hsc & Hall). simpl in Hsel, Hsc.
    destruct (iloc_columns_returns (columns feat_df)
                (slice_to max_num_feats
                   (take 0%nat selected (np_argsort (map Ropp cluster_scores)))))
      as [picked Hpicked].
    + apply Forall_forall. intros i Hi.
      apply slice_to_in, take_in in Hi.
      * destruct (Forall2_combine _ _ _ Hall) as (_ & Hsnd & Hrep).
        rewrite Hsel in Hi. apply in_map_iff in Hi. destruct Hi as [pick [<- Hpick]].
        rewrite <- Hsnd in Hpick. apply in_map_iff in Hpick.
        destruct Hpick as [t [<- Ht]].
        rewrite Forall_forall in Hrep. destruct (Hrep t Ht) as [Hlt _].
        fold (shape1 feat_df). lia.
      * apply Forall_forall. intros i' Hi'. apply np_argsort_range in Hi'.
        now rewrite length_map, Hsc, length_map, <- (length_map fst), <- Hsel in Hi'.
    + rewrite Hpicked. cbn [bind]. eauto.
Qed.

(** C4.  Whenever [fcr] returns (a given [max_num_feats] being a count),
    there is one pick per cluster of the clustering: its position carries the
    cluster's label and has the largest squared distance covariance with the
    standardized target among the members of the cluster, and the cluster's
    score is that value.  The picks are in descending order of score; the
    returned columns are the input columns at the picked positions and the
    returned scores the picks' scores, both truncated to [max_num_feats] when
    it is given and complete otherwise. *)
Theorem fcr_representatives (ap : Clustering) (feat_df : DataFrame) (y : list R)
    (max_num_feats : option Z) (sel : DataFrame) (scores : list R) :
  is_count max_num_feats ->
  fcr ap feat_df y max_num_feats = Ok (sel, scores) ->
  exists ranked : list Pick,
    NoDup (map pick_label ranked)
    /\ (forall label, In label (fcr_labels ap feat_df)
                      <-> In label (map pick_label ranked))
    /\ Forall (fun t => represents (standardized feat_df) (standardize y)
                          (fcr_labels ap feat_df)
                          (pick_label t) (pick_position t) (pick_score t))
              ranked
    /\ descending (map pick_score ranked)
    /\ Forall2 (fun i c => nth_error (columns feat_df) i = Some c)
               (truncate max_num_feats (map pick_position ranked)) (columns sel)
    /\ scores = truncate max_num_feats (map pick_score ranked).
Proof.
  intros Hcount Hrun.
  destruct (fcr_ranked_picks _ _ _ _ _ _ Hrun)
    as (ranked & Hperm & Hrep & Hdesc & Hcols & Hscores).
  exists ranked.
  rewrite slice_to_count in Hcols by exact Hcount.
  rewrite slice_to_count in Hscores by exact Hcount.
  repeat split; try assumption.
  - apply (Permutation_NoDup (Permutation_sym Hperm)), np_unique_distinct.
  - intros Hin. apply (Permutation_in _ (Permutation_sym Hperm)).
    now apply np_unique_in.
  - intros Hin. apply np_unique_in. now apply (Permutation_in _ Hperm).
  - now apply iloc_columns_picks.
Qed.

Lemma singletons_label_count (feat_df : DataFrame) :
  length (fcr_labels singletons feat_df) = shape1 feat_df.
Proof.
  unfold fcr_labels, singletons, similarity, pairwise_distances, standardized, shape1.
  cbn zeta. now rewrite length_map, length_seq, !length_map.
Qed.

Lemma fcr_representatives_witness :
  exists sel scores (ranked : list Pick),
    fcr singletons abc_frame y_abc (Some 2%Z) = Ok (sel, scores)
    /\ NoDup (map pick_label ranked)
    /\ (forall label, In label (fcr_labels singletons abc_frame)
                      <-> In label (map pick_label ranked))
    /\ Forall (fun t => represents (standardized abc_frame) (standardize y_abc)
                          (fcr_labels singletons abc_frame)
                          (pick_label t) (pick_position t) (pick_score t))
              ranked
    /\ descending (map pick_score ranked)
    /\ Forall2 (fun i c => nth_error (columns abc_frame) i = Some c)
               (firstn 2 (map pick_position ranked)) (columns sel)
    /\ scores = firstn 2 (map pick_score ranked).
Proof.
  destruct (fcr_returns singletons abc_frame y_abc (Some 2%Z)) as [[sel scores] Hrun].
  - discriminate.
  - discriminate.
  - apply abc_well_formed.
  - reflexivity.
  - apply singletons_label_count.
  - destruct (fcr_representatives singletons abc_frame y_abc (Some 2%Z) sel scores)
      as [ranked H].
    + simpl. lia.
    + exact Hrun.
    + exists sel, scores, ranked. split; [exact Hrun | exact H].
Defined.

(** ** The similarity matrix of fcr *)

Lemma sq_errors_sym (u v : list R) : sq_errors u v = sq_errors v u.
Proof.
  revert v.
  induction u as [|a u IH]; intros [|b v]; simpl; try reflexivity.
  now rewrite Rsqr_neg_minus, IH.
Qed.

Lemma euclidean_sym (u v : list R) : euclidean u v = euclidean v u.
Proof. unfold euclidean. now rewrite sq_errors_sym. Qed.

Lemma np_sum_sq_errors_self (u : list R) : np_sum (sq_errors u u) = 0.
Proof.
  induction u as [|a u IH]; simpl; [reflexivity|].
  rewrite IH. unfold Rsqr. lra.
Qed.

Lemma euclidean_self (u : list R) : euclidean u u = 0.
Proof. unfold euclidean. rewrite np_sum_sq_errors_self. apply sqrt_0. Qed.

Lemma entry_similarity (x : list (list R)) (i j : nat) :
  (i < length x)%nat -> (j < length x)%nat ->
  entry (similarity x) i j = - euclidean (nth i x []) (nth j x []).
Proof.
  intros Hi Hj. unfold entry, similarity, pairwise_distances.
  rewrite map_map.
  rewrite (nth_indep _ [] ((fun u => map Ropp (map (euclidean u) x)) []))
    by (now rewrite length_map).
  rewrite (map_nth (fun u => map Ropp (map (euclidean u) x))).
  rewrite nth_opp. f_equal.
  rewrite (nth_indep _ 0 (euclidean (nth i x []) []))
    by (now rewrite length_map).
  apply (map_nth (euclidean (nth i x []))).
Qed.

(** [fcr] consults the clustering once, on the similarity matrix of the
    standardized columns and its median. *)
Lemma fcr_clustering_call (ap1 ap2 : Clustering) (feat_df : DataFrame) (y : list R)
    (max_num_feats : option Z) :
  fcr_labels ap1 feat_df = fcr_labels ap2 feat_df ->
  fcr ap1 feat_df y max_num_feats = fcr ap2 feat_df y max_num_feats.
Proof.
  intros Hsame.
  destruct (Nat.eq_dec (index feat_df) 0) as [Hrows|Hrows].
  - unfold fcr, fit_transform. rewrite Hrows. reflexivity.
  - destruct (columns feat_df) as [|c cols] eqn:Hcols.
    + unfold fcr, fit_transform. rewrite Hcols. simpl.
      destruct (index feat_df); reflexivity.
    + destruct y as [|v y].
      * unfold fcr, fit_transform. rewrite Hcols. simpl.
        destruct (index feat_df); reflexivity.
      * rewrite !fcr_unfold, Hsame by (rewrite ?Hcols; congruence).
        reflexivity.
Qed.

(** C3 (as amended).  The matrix [fcr] hands to affinity propagation has at
    entry (i, j) the negative of the Euclidean distance between the
    standardized feature columns i and j, taken as points; it is symmetric
    and zero on the diagonal.  [fcr] depends on the clustering only through
    its value on that matrix and its median. *)
Theorem similarity_is_negative_distance (feat_df : DataFrame) (i j : nat) :
  (i < shape1 feat_df)%nat ->
  (j < shape1 feat_df)%nat ->
  entry (similarity (standardized feat_df)) i j
  = - euclidean (nth i (standardized feat_df) []) (nth j (standardized feat_df) [])
  /\ entry (similarity (standardized feat_df)) i j
     = entry (similarity (standardized feat_df)) j i
  /\ entry (similarity (standardized feat_df)) i i = 0
  /\ forall (ap1 ap2 : Clustering) (y : list R) (max_num_feats : option Z),
      ap1 (similarity (standardized feat_df))
          (np_median (concat (similarity (standardized feat_df))))
      = ap2 (similarity (standardized feat_df))
            (np_median (concat (similarity (standardized feat_df)))) ->
      fcr ap1 feat_df y max_num_feats = fcr ap2 feat_df y max_num_feats.
Proof.
  intros Hi Hj.
  assert (Hlen : length (standardized feat_df) = shape1 feat_df)
    by (unfold standardized, shape1; now rewrite !length_map).
  rewrite <- Hlen in Hi, Hj.
  repeat split.
  - now apply entry_similarity.
  - rewrite !entry_similarity by assumption. now rewrite euclidean_sym.
  - rewrite entry_similarity by assumption. rewrite euclidean_self. lra.
  - intros ap1 ap2 y m Hsame. now apply fcr_clustering_call.
Qed.

Lemma similarity_is_negative_distance_witness :
  entry (similarity (standardized two_rows_frame)) 0 1
  = - euclidean (nth 0 (standardized two_rows_frame) [])
                (nth 1 (standardized two_rows_frame) [])
  /\ entry (similarity (standardized two_rows_frame)) 0 1
     = entry (similarity (standardized two_rows_frame)) 1 0
  /\ entry (similarity (standardized two_rows_frame)) 0 0 = 0
  /\ forall (ap1 ap2 : Clustering) (y : list R) (max_num_feats : option Z),
      ap1 (similarity (standardized two_rows_frame))
          (np_median (concat (similarity (standardized two_rows_frame))))
      = ap2 (similarity (standardized two_rows_frame))
            (np_median (concat (similarity (standardized two_rows_frame)))) ->
      fcr ap1 two_rows_frame y max_num_feats = fcr ap2 two_rows_frame y max_num_feats.
Proof.
  apply (similarity_is_negative_distance two_rows_frame 0 1);
    unfold shape1; simpl; lia.
Defined.

(** *** Distance correlation on a concrete column *)

Lemma distance_correlation_self (x : list R) :
  0 < distance_covariance_sqr x x -> distance_correlation x x = 1.
Proof.
  intros Hv. unfold distance_correlation, distance_correlation_sqr. cbn zeta.
  destruct (Req_EM_T _ _) as [E|E].
  - exfalso. nra.
  - rewrite sqrt_square by lra.
    replace (distance_covariance_sqr x x / distance_covariance_sqr x x) with 1
      by (field; lra).
    apply sqrt_1.
Qed.

Lemma standardize_unit_pair : standardize [-1; 1] = [-1; 1].
Proof.
  assert (Hmean : np_mean [-1; 1] = 0) by (unfold np_mean; simpl; field).
  assert (Hvar : np_var [-1; 1] = 1).
  { unfold np_var. rewrite Hmean. unfold np_mean, Rsqr. simpl. field. }
  assert (Hscale : scale_of [-1; 1] = 1).
  { unfold scale_of. rewrite Hvar, sqrt_1.
    destruct (Req_EM_T 1 0); [lra | reflexivity]. }
  unfold standardize. rewrite Hmean, Hscale. simpl.
  repeat f_equal; field.
Qed.

Lemma abs_diffs_unit_pair : abs_diffs [-1; 1] = [[0; 2]; [2; 0]].
Proof.
  unfold abs_diffs. simpl.
  replace (-1 - -1) with 0 by lra.
  replace (1 - 1) with 0 by lra.
  replace (-1 - 1) with (- (2)) by lra.
  replace (1 - -1) with 2 by lra.
  rewrite Rabs_R0, Rabs_Ropp, Rabs_pos_eq by lra.
  reflexivity.
Qed.

Lemma distance_covariance_unit_pair : distance_covariance_sqr [-1; 1] [-1; 1] = 1.
Proof.
  unfold distance_covariance_sqr. rewrite abs_diffs_unit_pair.
  unfold mean_product, double_centered, np_mean. simpl. field.
Qed.

(** C3, as stated, fails: for the standardized column (-1, 1) the entry
    handed to affinity propagation on the diagonal is 0, the negative of the
    distance of the column to itself, whereas the distance correlation of a
    varying column with itself is 1. *)
Lemma similarity_is_not_distance_correlation :
  entry (similarity (standardized two_rows_frame)) 0 0
  <> - distance_correlation (nth 0 (standardized two_rows_frame) [])
                            (nth 0 (standardized two_rows_frame) []).
Proof.
  rewrite entry_similarity by (simpl; lia).
  rewrite euclidean_self.
  unfold standardized, two_rows_frame. cbn [columns map snd nth].
  rewrite standardize_unit_pair.
  rewrite distance_correlation_self
    by (rewrite distance_covariance_unit_pair; lra).
  lra.
Qed.

(** ** Constant columns *)















(** * Further properties *)

(** ** The loop of forward_selection, pass by pass *)

Section LoopMore.

Variable y : list R.
Variable model : Estimator.
Variable score_fn : option ScoreFn.
Variable cv : option Z.

#[local] Abbreviation trial := (trial_score y model score_fn cv).
#[local] Abbreviation step := (select_step y model score_fn cv).
#[local] Abbreviation loop := (select_loop y model score_fn cv).
#[local] Abbreviation fsel := (forward_selection y model score_fn cv).

(** Once there is more fuel than available columns, the amount of fuel does
    not matter. *)
Lemma select_loop_fuel_free (fuel fuel' : nat) (m : Z) (sel : DataFrame)
    (scores : list xfloat) (avail : DataFrame) :
  (shape1 avail < fuel)%nat -> (shape1 avail < fuel')%nat ->
  loop fuel m sel scores avail = loop fuel' m sel scores avail.
Proof.
  revert fuel' sel scores avail.
  induction fuel as [|fuel IH]; intros fuel' sel scores avail Hf Hf'; [lia|].
  destruct fuel' as [|fuel']; [lia|].
  simpl. destruct (Z.of_nat (shape1 sel) <? m)%Z; [|reflexivity].
  destruct (step sel scores avail) as [[[sel1 scores1] avail1]|e] eqn:Hstep;
    [|reflexivity].
  apply select_step_effect in Hstep.
  destruct Hstep as (pre & key & vec & post & s & Hcols & _ & _ & _ & _ & _ & _ & _
                     & _ & Hav').
  destruct (key_of_split _ _ _ _ _ Hcols) as [Hkey _].
  apply drop_key_shrinks in Hkey.
  apply IH; unfold shape1 in *; rewrite Hav'; lia.
Qed.

(** A property kept by every pass holds of what the loop returns. *)
Lemma select_loop_keeps (P : DataFrame -> list xfloat -> DataFrame -> Prop) :
  (forall sel scores avail sel' scores' avail',
      P sel scores avail ->
      step sel scores avail = Ok (sel', scores', avail') ->
      P sel' scores' avail') ->
  forall fuel m sel scores avail sel' scores',
    P sel scores avail ->
    loop fuel m sel scores avail = Done (Ok (sel', scores')) ->
    exists avail', P sel' scores' avail' /\ (m <= Z.of_nat (shape1 sel'))%Z.
Proof.
  intros Hkeep fuel m.
  induction fuel as [|fuel IH]; intros sel scores avail sel' scores' HP Hloop;
    simpl in Hloop;
    destruct (Z.ltb_spec (Z.of_nat (shape1 sel)) m) as [Hlt|Hge];
    try discriminate;
    try (injection Hloop as <- <-; exists avail; split; [exact HP | lia]).
  destruct (step sel scores avail) as [[[sel1 scores1] avail1]|e] eqn:Hstep;
    [|discriminate].
  apply (IH _ _ _ _ _ (Hkeep _ _ _ _ _ _ HP Hstep) Hloop).
Qed.

(** What [forward_selection] returns is what its loop returns, and it holds
    at least one score. *)
Lemma forward_selection_loop (feat_df : DataFrame) (max_num_feats : Z)
    (sel : DataFrame) (scores : list xfloat) :
  fsel feat_df max_num_feats = Done (Ok (sel, scores)) ->
  loop (S (shape1 feat_df)) (effective_max feat_df max_num_feats)
       {| index := index feat_df; columns := [] |} [] feat_df
  = Done (Ok (sel, scores))
  /\ scores <> [].
Proof.
  rewrite forward_selection_unfold. intros Hrun.
  destruct (loop _ _ _ _ _) as [[[sel0 scores0]|e]|]; try discriminate.
  cbn [bind] in Hrun.
  destruct scores0 as [|s0 scores0]; [discriminate|].
  cbn [np_argmax bind] in Hrun. injection Hrun as <- <-.
  split; [reflexivity | discriminate].
Qed.

(** The loop only ever appends: what it returns extends the state it
    started from. *)
Lemma select_loop_extends (feat_df : DataFrame) (fuel : nat) (m : Z)
    (sel : DataFrame) (scores : list xfloat) (avail sel' : DataFrame)
    (scores' : list xfloat) :
  loop_invariant feat_df sel scores avail ->
  loop fuel m sel scores avail = Done (Ok (sel', scores')) ->
  exists more_columns more_scores,
    columns sel' = columns sel ++ more_columns
    /\ scores' = scores ++ more_scores.
Proof.
  revert sel scores avail.
  induction fuel as [|fuel IH]; intros sel scores avail Hinv Hloop;
    simpl in Hloop;
    destruct (Z.of_nat (shape1 sel) <? m)%Z;
    try discriminate;
    try (injection Hloop as <- <-; exists [], []; now rewrite !app_nil_r).
  destruct (step sel scores avail) as [[[sel1 scores1] avail1]|e] eqn:Hstep;
    [|discriminate].
  destruct (invariant_step _ _ _ _ _ _ _ _ _ _ _ Hinv Hstep)
    as (Hinv1 & _ & _ & pre & key & vec & post & s & _ & _ & _ & _ & Hsel & Hsc & _).
  destruct (IH _ _ _ Hinv1 Hloop) as (cols & scs & Hcols & Hscs).
  exists ((key, vec) :: cols), (Fin s :: scs).
  rewrite Hcols, Hscs, Hsel, Hsc, <- !app_assoc. split; reflexivity.
Qed.

(** X1.  The [while] loop of [forward_selection] always ends: every pass that
    does not raise pops at least one column of the available frame, so the
    call returns or raises whatever the table, the bound or the column
    names; no more passes are ever needed than there are columns. *)
Theorem forward_selection_loop_ends (feat_df : DataFrame) (max_num_feats : Z) :
  (exists r, fsel feat_df max_num_feats = Done r)
  /\ forall fuel,
      (shape1 feat_df < fuel)%nat ->
      loop fuel (effective_max feat_df max_num_feats)
           {| index := index feat_df; columns := [] |} [] feat_df
      = loop (S (shape1 feat_df)) (effective_max feat_df max_num_feats)
             {| index := index feat_df; columns := [] |} [] feat_df.
Proof.
  split.
  - apply forward_selection_terminates.
  - intros fuel Hfuel. apply select_loop_fuel_free; lia.
Qed.

(** *** The recorded scores *)

Lemma scores_of_prefixes_step (feat_df sel : DataFrame) (scores : list xfloat)
    (avail sel' : DataFrame) (scores' : list xfloat) (avail' : DataFrame) :
  loop_invariant feat_df sel scores avail ->
  scores_of_prefixes y model score_fn cv sel scores ->
  step sel scores avail = Ok (sel', scores', avail') ->
  scores_of_prefixes y model score_fn cv sel' scores'.
Proof.
  intros Hinv [Hlen Hpre] Hstep.
  destruct (invariant_step _ _ _ _ _ _ _ _ _ _ _ Hinv Hstep)
    as (Hinv1 & Hgrow & _ & pre & key & vec & post & s & _ & Hs & _ & _ & Hsel & Hsc & _).
  destruct Hinv as (Hisel & _). destruct Hinv1 as (Hisel1 & _).
  split.
  - rewrite Hsc, length_app, Hgrow, Hlen. simpl. lia.
  - intros k Hk. rewrite Hsc, length_app in Hk. simpl in Hk.
    unfold prefix_frame. rewrite Hsel, Hisel1, <- Hisel.
    destruct (Nat.eq_dec k (length scores)) as [->|Hne].
    + exists s. split.
      * rewrite Hsc, nth_middle. reflexivity.
      * rewrite firstn_all2 by (rewrite length_app, Hlen; unfold shape1; simpl; lia).
        exact Hs.
    + destruct (Hpre k) as [s' [Hnth Htrial]]; [lia|].
      exists s'. split.
      * rewrite Hsc, app_nth1 by lia. exact Hnth.
      * rewrite firstn_app.
        replace (S k - length (columns sel))%nat with 0%nat
          by (unfold shape1 in Hlen; lia).
        rewrite firstn_O, app_nil_r. exact Htrial.
Qed.

(** X2.  Every score [forward_selection] returns is a number (never the
    initial [-inf]), there is one per selected column, and score [k] is the
    cross-validated score of the table made of the first [k + 1] selected
    columns, in selection order. *)
Theorem forward_selection_scores_prefixes (feat_df : DataFrame) (max_num_feats : Z)
    (sel : DataFrame) (scores : list xfloat) :
  fsel feat_df max_num_feats = Done (Ok (sel, scores)) ->
  scores_of_prefixes y model score_fn cv sel scores.
Proof.
  intros Hrun. apply forward_selection_loop in Hrun. destruct Hrun as [Hloop _].
  set (P := fun (sel : DataFrame) (scores : list xfloat) (avail : DataFrame) =>
              loop_invariant feat_df sel scores avail
              /\ scores_of_prefixes y model score_fn cv sel scores).
  assert (Hkeep : forall sel scores avail sel' scores' avail',
             P sel scores avail ->
             step sel scores avail = Ok (sel', scores', avail') ->
             P sel' scores' avail').
  { intros s0 sc0 av0 s1 sc1 av1 [Hinv Hsc] Hstep. split.
    - apply (invariant_step _ _ _ _ _ _ _ _ _ _ _ Hinv Hstep).
    - apply (scores_of_prefixes_step _ _ _ _ _ _ _ Hinv Hsc Hstep). }
  assert (H0 : P {| index := index feat_df; columns := [] |} [] feat_df).
  { split; [apply invariant_first|].
    split; [reflexivity | simpl; intros k Hk; lia]. }
  destruct (select_loop_keeps P Hkeep _ _ _ _ _ _ _ H0 Hloop)
    as [avail' [[_ Hscores] _]].
  exact Hscores.
Qed.

(** *** No column is lost *)

Lemma partition_step (feat_df sel : DataFrame) (scores : list xfloat)
    (avail sel' : DataFrame) (scores' : list xfloat) (avail' : DataFrame) :
  loop_invariant feat_df sel scores avail ->
  NoDup (column_keys avail) ->
  Permutation (columns sel ++ columns avail) (columns feat_df) ->
  step sel scores avail = Ok (sel', scores', avail') ->
  NoDup (column_keys avail')
  /\ Permutation (columns sel' ++ columns avail') (columns feat_df).
Proof.
  intros Hinv Hnd Hperm Hstep.
  destruct (invariant_step _ _ _ _ _ _ _ _ _ _ _ Hinv Hstep)
    as (_ & _ & _ & pre & key & vec & post & s & Hcols & _ & _ & _ & Hsel & _ & Hav).
  split.
  - unfold column_keys. rewrite Hav. now apply NoDup_keys_filter.
  - assert (Hav' : columns avail' = pre ++ post).
    { rewrite Hav, Hcols. apply drop_key_unique.
      unfold column_keys in Hnd. rewrite Hcols in Hnd. exact Hnd. }
    rewrite Hsel, Hav', <- Hperm, Hcols, <- app_assoc.
    apply Permutation_app_head. simpl. apply Permutation_middle.
Qed.

(** X3.  On a table with distinct column names [forward_selection] neither
    loses nor repeats a column: the selected columns together with some
    remaining ones are a rearrangement of the input columns, and with
    [max_num_feats = 0] (select all) the selected columns are a rearrangement
    of all the input columns. *)
Theorem forward_selection_rearranges (feat_df : DataFrame) (max_num_feats : Z)
    (sel : DataFrame) (scores : list xfloat) :
  NoDup (column_keys feat_df) ->
  fsel feat_df max_num_feats = Done (Ok (sel, scores)) ->
  (exists remaining, Permutation (columns sel ++ remaining) (columns feat_df))
  /\ (max_num_feats = 0%Z -> Permutation (columns sel) (columns feat_df)).
Proof.
  intros Hnd Hrun. apply forward_selection_loop in Hrun. destruct Hrun as [Hloop _].
  set (P := fun (sel : DataFrame) (scores : list xfloat) (avail : DataFrame) =>
              loop_invariant feat_df sel scores avail
              /\ NoDup (column_keys avail)
              /\ Permutation (columns sel ++ columns avail) (columns feat_df)).
  assert (Hkeep : forall sel scores avail sel' scores' avail',
             P sel scores avail ->
             step sel scores avail = Ok (sel', scores', avail') ->
             P sel' scores' avail').
  { intros s0 sc0 av0 s1 sc1 av1 (Hinv & Hnd0 & Hperm0) Hstep. split.
    - apply (invariant_step _ _ _ _ _ _ _ _ _ _ _ Hinv Hstep).
    - apply (partition_step _ _ _ _ _ _ _ Hinv Hnd0 Hperm0 Hstep). }
  assert (H0 : P {| index := index feat_df; columns := [] |} [] feat_df).
  { split; [apply invariant_first|]. split; [exact Hnd | reflexivity]. }
  destruct (select_loop_keeps P Hkeep _ _ _ _ _ _ _ H0 Hloop)
    as [avail' [(_ & _ & Hperm) Hm]].
  split; [now exists (columns avail')|].
  intros ->. unfold effective_max in Hm. simpl in Hm.
  pose proof (Permutation_length Hperm) as Hlen.
  rewrite length_app in Hlen. unfold shape1 in Hm.
  destruct (columns avail') as [|c rest]; [|simpl in Hlen; lia].
  now rewrite app_nil_r in Hperm.
Qed.

(** *** A larger bound continues the same selection *)

Lemma select_loop_prefix (feat_df : DataFrame) (fuel fuel' : nat) (m m' : Z)
    (sel0 : DataFrame) (scores0 : list xfloat) (avail0 : DataFrame)
    (sel : DataFrame) (scores : list xfloat) (sel' : DataFrame)
    (scores' : list xfloat) :
  loop_invariant feat_df sel0 scores0 avail0 ->
  (m <= m')%Z ->
  loop fuel m sel0 scores0 avail0 = Done (Ok (sel, scores)) ->
  loop fuel' m' sel0 scores0 avail0 = Done (Ok (sel', scores')) ->
  exists more_columns more_scores,
    columns sel' = columns sel ++ more_columns
    /\ scores' = scores ++ more_scores.
Proof.
  intros Hinv Hmm. revert fuel' sel0 scores0 avail0 Hinv.
  induction fuel as [|fuel IH]; intros fuel' sel0 scores0 avail0 Hinv Hloop Hloop'.
  - simpl in Hloop.
    destruct (Z.of_nat (shape1 sel0) <? m)%Z; [discriminate|].
    injection Hloop as <- <-.
    apply (select_loop_extends _ _ _ _ _ _ _ _ Hinv Hloop').
  - simpl in Hloop.
    destruct (Z.ltb_spec (Z.of_nat (shape1 sel0)) m) as [Hlt|Hge].
    + destruct fuel' as [|fuel']; simpl in Hloop';
        destruct (Z.ltb_spec (Z.of_nat (shape1 sel0)) m'); try lia;
        try discriminate.
      destruct (step sel0 scores0 avail0) as [[[sel1 scores1] avail1]|e] eqn:Hstep;
        [|discriminate].
      destruct (invariant_step _ _ _ _ _ _ _ _ _ _ _ Hinv Hstep) as (Hinv1 & _).
      apply (IH _ _ _ _ Hinv1 Hloop Hloop').
    + injection Hloop as <- <-.
      apply (select_loop_extends _ _ _ _ _ _ _ _ Hinv Hloop').
Qed.

Lemma firstn_prefix {A : Type} (l more : list A) :
  firstn (length l) (l ++ more) = l.
Proof.
  rewrite firstn_app, Nat.sub_diag, firstn_all, firstn_O. apply app_nil_r.
Qed.

(** X4.  The selection is greedy and never revised: when two calls of
    [forward_selection] on the same inputs return, the one with the smaller
    bound returns a prefix of the other's selected columns and of its
    scores. *)
Theorem forward_selection_bound_prefix (feat_df : DataFrame) (m1 m2 : Z)
    (sel1 : DataFrame) (scores1 : list xfloat) (sel2 : DataFrame)
    (scores2 : list xfloat) :
  (effective_max feat_df m1 <= effective_max feat_df m2)%Z ->
  fsel feat_df m1 = Done (Ok (sel1, scores1)) ->
  fsel feat_df m2 = Done (Ok (sel2, scores2)) ->
  columns sel1 = firstn (length scores1) (columns sel2)
  /\ scores1 = firstn (length scores1) scores2.
Proof.
  intros Hm Hrun1 Hrun2.
  apply forward_selection_loop in Hrun1. destruct Hrun1 as [Hloop1 _].
  apply forward_selection_loop in Hrun2. destruct Hrun2 as [Hloop2 _].
  destruct (select_loop_prefix _ _ _ _ _ _ _ _ _ _ _ _
              (invariant_first feat_df) Hm Hloop1 Hloop2)
    as (cols & scs & Hcols & Hscs).
  assert (Hkeep : forall sel scores avail sel' scores' avail',
             loop_invariant feat_df sel scores avail ->
             step sel scores avail = Ok (sel', scores', avail') ->
             loop_invariant feat_df sel' scores' avail').
  { intros s0 sc0 av0 s1 sc1 av1 Hinv Hstep.
    apply (invariant_step _ _ _ _ _ _ _ _ _ _ _ Hinv Hstep). }
  destruct (select_loop_keeps (loop_invariant feat_df) Hkeep _ _ _ _ _ _ _
              (invariant_first feat_df) Hloop1)
    as [avail1 [(_ & _ & _ & _ & _ & _ & Hlen) _]].
  rewrite Hcols, Hscs. split.
  - rewrite Hlen. unfold shape1. now rewrite firstn_prefix.
  - now rewrite firstn_prefix.
Qed.

End LoopMore.

(** ** forward_selection and ranking together *)

Section FirstPass.

Variable y : list R.
Variable model : Estimator.
Variable score_fn : option ScoreFn.
Variable cv : option Z.

#[local] Abbreviation trial := (trial_score y model score_fn cv).
#[local] Abbreviation step := (select_step y model score_fn cv).
#[local] Abbreviation loop := (select_loop y model score_fn cv).

(** The first pass of a call that returns. *)
Lemma forward_selection_first_pass (feat_df : DataFrame) (max_num_feats : Z)
    (sel : DataFrame) (scores : list xfloat) :
  forward_selection y model score_fn cv feat_df max_num_feats
  = Done (Ok (sel, scores)) ->
  exists pre key vec post s more_columns more_scores,
    columns feat_df = pre ++ (key, vec) :: post
    /\ trial (frame_of (index feat_df) (key, vec)) = Ok s
    /\ Forall (fun c => exists s', trial (frame_of (index feat_df) c) = Ok s'
                                   /\ s' < s) pre
    /\ Forall (fun c => exists s', trial (frame_of (index feat_df) c) = Ok s'
                                   /\ s' <= s) post
    /\ columns sel = (key, vec) :: more_columns
    /\ scores = Fin s :: more_scores.
Proof.
  intros Hrun. apply forward_selection_loop in Hrun. destruct Hrun as [Hloop Hne].
  cbn [select_loop] in Hloop.
  destruct (Z.of_nat (shape1 {| index := index feat_df; columns := [] |})
            <? effective_max feat_df max_num_feats)%Z.
  - destruct (step {| index := index feat_df; columns := [] |} [] feat_df)
      as [[[sel1 scores1] avail1]|e] eqn:Hstep; [|discriminate].
    destruct (invariant_step _ _ _ _ _ _ _ _ _ _ _ (invariant_first feat_df) Hstep)
      as (Hinv1 & _ & _ & pre & key & vec & post & s
          & Hcols & Hs & Hpre & Hpost & Hsel & Hsc & _).
    destruct (select_loop_extends _ _ _ _ _ _ _ _ _ _ _ _ Hinv1 Hloop)
      as (cols & scs & Hcols' & Hscs').
    exists pre, key, vec, post, s, cols, scs.
    rewrite Hcols', Hscs', Hsel, Hsc. simpl.
    repeat split; assumption.
  - injection Hloop as _ <-. contradiction.
Qed.

Lemma Forall2_split_at {A B : Type} (P : A -> B -> Prop) (pre : list A) (a : A)
    (post : list A) (l : list B) :
  Forall2 P (pre ++ a :: post) l ->
  exists lpre b lpost,
    l = lpre ++ b :: lpost
    /\ Forall2 P pre lpre /\ P a b /\ Forall2 P post lpost.
Proof.
  intros H. apply Forall2_app_inv_l in H.
  destruct H as (lpre & rest & Hpre & Hrest & ->).
  inversion Hrest as [|? b ? lpost Hab Hpost]; subst.
  exists lpre, b, lpost. repeat split; assumption.
Qed.

(** X5.  When [ranking] and [forward_selection] both return on the same
    inputs, the first feature selected is the first column holding the
    highest ranking score, and the first recorded score is that highest
    ranking score: columns ranked before it score strictly less. *)
Theorem first_selected_is_top_ranked (feat_df : DataFrame) (max_num_feats : Z)
    (rscores : list R) (sel : DataFrame) (scores : list xfloat) :
  ranking y model score_fn cv feat_df = Ok rscores ->
  forward_selection y model score_fn cv feat_df max_num_feats
  = Done (Ok (sel, scores)) ->
  exists i c s,
    nth_error (columns feat_df) i = Some c
    /\ nth_error rscores i = Some s
    /\ np_max rscores = Ok s
    /\ (forall j r, (j < i)%nat -> nth_error rscores j = Some r -> r < s)
    /\ nth_error (columns sel) 0 = Some c
    /\ nth_error scores 0 = Some (Fin s).
Proof.
  intros Hrank Hrun.
  apply ranking_scores in Hrank.
  apply forward_selection_first_pass in Hrun.
  destruct Hrun as (pre & key & vec & post & s & cols & scs
                    & Hcols & Hs & Hpre & Hpost & Hsel & Hsc).
  rewrite Hcols in Hrank. apply Forall2_split_at in Hrank.
  destruct Hrank as (rpre & r & rpost & -> & Hrpre & Hr & Hrpost).
  assert (r = s) by congruence. subst r.
  assert (Hlen : length rpre = length pre) by (symmetry; apply (Forall2_length Hrpre)).
  assert (Hbefore : Forall (fun r => r < s) rpre).
  { clear -Hrpre Hpre. induction Hrpre as [|c r pre rpre Hc _ IH]; [constructor|].
    inversion Hpre as [|? ? [s' [Hs' Hlt]] Hpre']; subst.
    constructor; [congruence | now apply IH]. }
  assert (Hafter : Forall (fun r => r <= s) rpost).
  { clear -Hrpost Hpost. induction Hrpost as [|c r post rpost Hc _ IH]; [constructor|].
    inversion Hpost as [|? ? [s' [Hs' Hle]] Hpost']; subst.
    constructor; [congruence | now apply IH]. }
  exists (length pre), (key, vec), s.
  rewrite Hcols, Hsel, Hsc. repeat split.
  - now rewrite nth_error_app2, Nat.sub_diag by lia.
  - now rewrite nth_error_app2, Hlen, Nat.sub_diag by lia.
  - destruct (np_max_returns (rpre ++ s :: rpost)) as [mx Hmx];
      [now destruct rpre|].
    rewrite Hmx. f_equal.
    apply np_max_is_max in Hmx. destruct Hmx as [Hin Hall].
    apply Rle_antisym.
    + apply in_app_or in Hin. rewrite Forall_forall in Hbefore, Hafter.
      destruct Hin as [Hin | [-> | Hin]];
        [left; now apply Hbefore | lra | now apply Hafter].
    + rewrite Forall_forall in Hall. apply Hall, in_or_app. right. now left.
  - intros j r Hj Hnth. rewrite nth_error_app1 in Hnth by lia.
    rewrite Forall_forall in Hbefore. apply Hbefore.
    now apply nth_error_In in Hnth.
Qed.

End FirstPass.

(** ** Tables with a repeated column name *)

Lemma drop_key_single (key : string) (cols : list Column) :
  In key (map fst cols) ->
  NoDup (map fst (drop_key key cols)) ->
  (length (drop_key key cols) + 1 = length cols)%nat ->
  NoDup (map fst cols).
Proof.
  induction cols as [|[k v] cols IH]; simpl; intros Hin Hnd Hlen; [contradiction|].
  destruct (String.eqb_spec k key) as [->|Hk]; simpl in *.
  - assert (Habsent : ~ In key (map fst cols)).
    { intros Hin'. apply drop_key_shrinks in Hin'. lia. }
    rewrite drop_key_absent in Hnd by exact Habsent.
    now constructor.
  - destruct Hin as [Hin|Hin]; [contradiction|].
    inversion Hnd as [|? ? Hnot Hnd']; subst.
    constructor.
    + intros Hk'. apply Hnot. apply drop_key_keys. split; assumption.
    + apply IH; [assumption | assumption | lia].
Qed.

Section TwinNames.

Variable y : list R.
Variable model : Estimator.
Variable score_fn : option ScoreFn.
Variable cv : option Z.

#[local] Abbreviation step := (select_step y model score_fn cv).
#[local] Abbreviation loop := (select_loop y model score_fn cv).

Lemma select_loop_twin_names (fuel : nat) (m : Z) (sel : DataFrame)
    (scores : list xfloat) (avail : DataFrame) :
  (shape1 avail < fuel)%nat ->
  scorable y cv sel ->
  Forall (fun c : Column => length (snd c) = index sel) (columns avail) ->
  ~ NoDup (column_keys avail) ->
  (Z.of_nat (shape1 sel + shape1 avail) <= m)%Z ->
  loop fuel m sel scores avail = Done (Raise IndexOutOfBounds).
Proof.
  revert sel scores avail.
  induction fuel as [|fuel IH]; intros sel scores avail Hfuel Hsc Hlens Hdup Hm; [lia|].
  assert (Hne : columns avail <> []).
  { intros Hnil. apply Hdup. unfold column_keys. rewrite Hnil. constructor. }
  assert (Hpos : (0 < shape1 avail)%nat).
  { unfold shape1. destruct (columns avail); [contradiction | simpl; lia]. }
  simpl. destruct (Z.ltb_spec (Z.of_nat (shape1 sel)) m) as [Hlt|Hge]; [|lia].
  destruct (select_step_returns y model score_fn cv sel scores avail Hsc Hne Hlens)
    as [[[sel1 scores1] avail1] Hstep].
  rewrite Hstep.
  apply select_step_effect in Hstep.
  destruct Hstep as (pre & key & vec & post & s & Hsplit & _ & _ & _ & _ & _ & Hisel
                     & Hsel1 & Hiav & Hav1).
  destruct (key_of_split _ _ _ _ _ Hsplit) as [Hkey _].
  pose proof (drop_key_shrinks _ _ Hkey) as Hshrink.
  assert (Hgrow : (shape1 sel1 <= S (shape1 sel))%nat).
  { unfold shape1. rewrite Hsel1.
    destruct (has_key key (columns sel)); rewrite ?length_map, ?length_app;
      simpl; lia. }
  assert (Hsc1 : scorable y cv sel1) by now apply (scorable_index y cv sel).
  assert (Hlens1 : Forall (fun c : Column => length (snd c) = index sel1)
                          (columns avail1)).
  { rewrite Hisel, Hav1. unfold drop_key.
    rewrite Forall_forall in *. intros c Hc. apply filter_In in Hc. now apply Hlens. }
  unfold shape1 in *.
  destruct (Nat.eq_dec (length (drop_key key (columns avail)) + 1)
                       (length (columns avail))) as [Heq|Hneq].
  - apply IH; unfold shape1; try assumption; rewrite ?Hav1; try lia.
    intros Hnd1. apply Hdup. unfold column_keys in *. rewrite Hav1 in Hnd1.
    now apply (drop_key_single key).
  - apply select_loop_exhausts; unfold shape1; rewrite ?Hav1;
      [lia | right; split; [assumption | now rewrite <- Hav1] | lia].
Qed.

(** X6.  [forward_selection] cannot select all the columns of a table in
    which a column name is repeated: popping the winner drops every column
    of that name, so with a bound of at least the number of columns (the
    select-all value 0 included) the loop runs out of columns and the call
    raises on the first column of the emptied frame. *)
Theorem forward_selection_twin_names (feat_df : DataFrame) (max_num_feats : Z) :
  scorable y cv feat_df ->
  well_formed feat_df ->
  ~ NoDup (column_keys feat_df) ->
  (Z.of_nat (shape1 feat_df) <= effective_max feat_df max_num_feats)%Z ->
  forward_selection y model score_fn cv feat_df max_num_feats
  = Done (Raise IndexOutOfBounds).
Proof.
  intros Hsc Hwf Hdup Hm. rewrite forward_selection_unfold.
  rewrite select_loop_twin_names; try assumption; try reflexivity;
    cbn [shape1 columns length Nat.add]; lia.
Qed.

End TwinNames.

(** ** Scoring errors in ranking and forward_selection *)

Section ScoringErrors.

Variable y : list R.
Variable model : Estimator.
Variable score_fn : option ScoreFn.
Variable cv : option Z.

#[local] Abbreviation trial := (trial_score y model score_fn cv).

(** On inputs that cannot be scored every trial raises the same error,
    which depends on the row count, the target and the fold count only. *)
Lemma trial_score_unscorable (feat_df : DataFrame) :
  ~ scorable y cv feat_df ->
  exists e, (DimensionMismatch e \/ InvalidFoldCount e)
            /\ forall df, index df = index feat_df -> trial df = Raise e.
Proof.
  intros Hnot.
  destruct (Nat.eq_dec (index feat_df) (length y)) as [Hn|Hn].
  - assert (Hcv : (effective_cv cv y < 2 \/ Z.of_nat (length y) < effective_cv cv y)%Z).
    { destruct (Z.lt_ge_cases (effective_cv cv y) 2) as [Hlt|Hge]; [now left|].
      destruct (Z.lt_ge_cases (Z.of_nat (length y)) (effective_cv cv y)) as [Hlt|Hle];
        [now right|].
      exfalso. apply Hnot. split; [exact Hn | lia]. }
    destruct (Z.lt_ge_cases (effective_cv cv y) 2) as [Hlt|Hge].
    + exists TooFewSplits. split; [right; now left|].
      intros df Hdf. unfold trial_score, score_model, cross_validate.
      fold (effective_cv cv y).
      rewrite Hdf, Hn, check_split_few by exact Hlt. reflexivity.
    + exists TooManySplits. split; [right; now right|].
      intros df Hdf. unfold trial_score, score_model, cross_validate.
      fold (effective_cv cv y).
      rewrite Hdf, Hn, check_split_many by lia. reflexivity.
  - exists InconsistentSamples. split; [now left|].
    intros df Hdf. unfold trial_score.
    rewrite score_model_mismatch by congruence. reflexivity.
Qed.

(** X7.  [ranking] and [forward_selection] do not validate their inputs:
    when the target length differs from the row count or the fold count is
    out of range, the error of the first trial's cross-validation comes out
    of both (of [forward_selection] when its bound is positive), and nothing
    is returned.  On a table without columns [ranking] raises, on the maximum
    of an empty array. *)
Theorem scoring_errors_come_out (feat_df : DataFrame) (max_num_feats : Z) :
  (columns feat_df = [] ->
   ranking y model score_fn cv feat_df = Raise EmptyReduction)
  /\ (columns feat_df <> [] ->
      ~ scorable y cv feat_df ->
      exists e, (DimensionMismatch e \/ InvalidFoldCount e)
                /\ ranking y model score_fn cv feat_df = Raise e
                /\ ((0 < effective_max feat_df max_num_feats)%Z ->
                    forward_selection y model score_fn cv feat_df max_num_feats
                    = Done (Raise e))).
Proof.
  split.
  - intros Hnil. unfold ranking. rewrite Hnil. reflexivity.
  - intros Hne Hnot.
    destruct (trial_score_unscorable feat_df Hnot) as [e [Hkind Hraise]].
    exists e. split; [exact Hkind|].
    destruct (columns feat_df) as [|[k v] rest] eqn:Hcols; [contradiction|].
    split.
    + unfold ranking. rewrite Hcols. cbn [ranking_loop].
      rewrite Hraise by reflexivity. reflexivity.
    + intros Hm. rewrite forward_selection_unfold. cbn [select_loop].
      destruct (Z.ltb_spec (Z.of_nat (shape1 {| index := index feat_df;
                                                columns := [] |}))
                           (effective_max feat_df max_num_feats)) as [_|Hge];
        [|cbn [shape1 columns length Z.of_nat] in Hge; lia].
      unfold select_step, first_key. rewrite Hcols. cbn [bind scan fst].
      rewrite Hraise by reflexivity. reflexivity.
Qed.

End ScoringErrors.

(** ** The sign of the default score *)

Lemma np_sum_zero (l : list R) :
  Forall (fun v => 0 <= v) l ->
  (np_sum l = 0 <-> Forall (fun v => v = 0) l).
Proof.
  induction 1 as [|v l Hv Hl IH]; simpl.
  - split; [constructor | reflexivity].
  - pose proof (np_sum_sq_nonneg l Hl) as Hsum. split.
    + intros H. assert (v = 0) by lra. assert (np_sum l = 0) by lra.
      constructor; [assumption | now apply IH].
    + intros H. inversion H as [|? ? Hv0 Hl0]; subst.
      apply IH in Hl0. lra.
Qed.

Lemma np_mean_zero (l : list R) :
  Forall (fun v => 0 <= v) l ->
  (np_mean l = 0 <-> Forall (fun v => v = 0) l).
Proof.
  intros Hl. rewrite <- (np_sum_zero l Hl). unfold np_mean.
  destruct l as [|v l].
  - simpl. unfold Rdiv. rewrite Rmult_0_l. tauto.
  - assert (Hlen : 0 < INR (length (v :: l))) by (apply lt_0_INR; simpl; lia).
    split; intros H.
    + apply (Rmult_eq_compat_r (INR (length (v :: l)))) in H.
      unfold Rdiv in H. rewrite Rmult_assoc, Rinv_l, Rmult_1_r, Rmult_0_l in H by lra.
      exact H.
    + rewrite H. unfold Rdiv. apply Rmult_0_l.
Qed.

Lemma trial_score_scorable (y : list R) (model : Estimator) (score_fn : option ScoreFn)
    (cv : option Z) (feat_df : DataFrame) (s : R) :
  trial_score y model score_fn cv feat_df = Ok s -> scorable y cv feat_df.
Proof.
  intros Hs.
  destruct (Nat.eq_dec (index feat_df) (length y)) as [Hn|Hn].
  - split; [exact Hn|].
    destruct (Z.lt_ge_cases (effective_cv cv y) 2) as [Hlt|Hge].
    + exfalso. unfold trial_score, score_model, cross_validate in Hs.
      fold (effective_cv cv y) in Hs.
      rewrite Hn, check_split_few in Hs by exact Hlt. discriminate.
    + destruct (Z.lt_ge_cases (Z.of_nat (length y)) (effective_cv cv y)) as [Hlt|Hle];
        [|lia].
      exfalso. unfold trial_score, score_model, cross_validate in Hs.
      fold (effective_cv cv y) in Hs.
      rewrite Hn, check_split_many in Hs by lia. discriminate.
  - exfalso. unfold trial_score in Hs.
    rewrite score_model_mismatch in Hs by exact Hn. discriminate.
Qed.

(** X8.  With the default score, the cross-validated score that [ranking]
    and [forward_selection] give a table is never positive, and it is zero
    exactly when every held-out prediction is exact (every held-out squared
    error is zero). *)
Theorem default_score_sign (y : list R) (model : Estimator) (cv : option Z)
    (feat_df : DataFrame) (s : R) :
  trial_score y model None cv feat_df = Ok s ->
  s <= 0
  /\ (s = 0 <->
      Forall (fun e => e = 0)
             (held_out_sq_errors model feat_df y
                (kfold_tests (length y) (Z.to_nat (effective_cv cv y))))).
Proof.
  intros Hs.
  pose proof (trial_score_scorable _ _ _ _ _ _ Hs) as Hsc.
  rewrite trial_score_default in Hs by exact Hsc. injection Hs as <-.
  set (folds := kfold_tests (length y) (Z.to_nat (effective_cv cv y))).
  assert (Hmses : Forall (fun v => 0 <= v) (fold_mses model feat_df y folds)).
  { unfold fold_mses. rewrite Forall_map. apply Forall_forall.
    intros test _. apply mean_squared_error_nonneg. }
  pose proof (np_mean_nonneg _ Hmses) as Hmean.
  split.
  - pose proof (sqrt_pos (np_mean (fold_mses model feat_df y folds))). lra.
  - transitivity (np_mean (fold_mses model feat_df y folds) = 0).
    + split; intros H.
      * apply sqrt_eq_0; [exact Hmean | lra].
      * rewrite H, sqrt_0. lra.
    + rewrite (np_mean_zero _ Hmses).
      unfold fold_mses, held_out_sq_errors, mean_squared_error.
      rewrite Forall_map, Forall_concat, Forall_map.
      rewrite !Forall_forall.
      split; intros H test Htest; specialize (H test Htest);
        apply (np_mean_zero _ (sq_errors_nonneg _ _)); exact H.
Qed.

(** ** What score_model returns *)

Lemma consecutive_concat (start : nat) (sizes : list nat) :
  concat (consecutive start sizes) = seq start (list_sum sizes).
Proof.
  revert start.
  induction sizes as [|s sizes IH]; intros start; simpl.
  - reflexivity.
  - now rewrite IH, <- seq_app.
Qed.

Lemma fold_sizes_partial_sum (n k j : nat) :
  list_sum (map (fun i => (n / k + (if i <? n mod k then 1 else 0))%nat) (seq 0 j))
  = (j * (n / k) + Nat.min j (n mod k))%nat.
Proof.
  induction j as [|j IH].
  - reflexivity.
  - rewrite seq_S, map_app, list_sum_app, IH.
    cbn [map list_sum fold_right Nat.add].
    destruct (Nat.ltb_spec j (n mod k)); lia.
Qed.

Lemma fold_sizes_sum (n k : nat) : (0 < k)%nat -> list_sum (fold_sizes n k) = n.
Proof.
  intros Hk. unfold fold_sizes. rewrite fold_sizes_partial_sum.
  pose proof (Nat.mod_upper_bound n k ltac:(lia)).
  pose proof (Nat.div_mod_eq n k). lia.
Qed.

(** The folds hold out every row once, in row order. *)
Lemma kfold_tests_cover (n k : nat) :
  (0 < k)%nat -> concat (kfold_tests n k) = seq 0 n.
Proof.
  intros Hk. unfold kfold_tests.
  now rewrite consecutive_concat, fold_sizes_sum.
Qed.

Lemma consecutive_ones (start k : nat) :
  consecutive start (repeat 1%nat k) = map (fun i => [i]) (seq start k).
Proof.
  revert start.
  induction k as [|k IH]; intros start; simpl.
  - reflexivity.
  - now rewrite IH, Nat.add_1_r.
Qed.

Lemma map_constant {A B : Type} (c : B) (l : list A) :
  map (fun _ => c) l = repeat c (length l).
Proof. induction l as [|a l IH]; simpl; [reflexivity | now rewrite IH]. Qed.

(** Leave-one-out: one fold per row. *)
Lemma kfold_tests_loo (n : nat) :
  (0 < n)%nat -> kfold_tests n n = map (fun i => [i]) (seq 0 n).
Proof.
  intros Hn. unfold kfold_tests, fold_sizes.
  rewrite Nat.div_same, Nat.Div0.mod_same by lia.
  rewrite (map_ext _ (fun _ => 1%nat)) by (intros i; simpl; lia).
  now rewrite map_constant, length_seq, consecutive_ones.
Qed.

Lemma train_of_loo (n i j : nat) :
  In j (train_of n [i]) <-> (j < n)%nat /\ j <> i.
Proof.
  unfold train_of, mem_nat. rewrite filter_In, in_seq. simpl.
  destruct (Nat.eqb_spec j i); simpl; intuition (try lia; try discriminate).
Qed.

Lemma neg_rmse_single (a p : R) : neg_rmse [a] [p] = - Rabs (a - p).
Proof.
  unfold neg_rmse, mean_squared_error, np_mean. simpl.
  replace (((a - p)² + 0) / 1) with ((a - p)²) by field.
  now rewrite sqrt_Rsqr_abs.
Qed.

Lemma neg_rmse_nonpos (meas pred : list R) : neg_rmse meas pred <= 0.
Proof.
  unfold neg_rmse. pose proof (sqrt_pos (mean_squared_error meas pred)). lra.
Qed.

Lemma length_concat_map {A B : Type} (f : list A -> list B) (ls : list (list A)) :
  (forall l, length (f l) = length l) ->
  length (concat (map f ls)) = length (concat ls).
Proof.
  intros Hf. induction ls as [|l ls IH]; simpl.
  - reflexivity.
  - now rewrite !length_app, Hf, IH.
Qed.

Lemma score_model_scorable (feat_df : DataFrame) (y : list R) (model : Estimator)
    (score_fn : option ScoreFn) (cv : option Z) (find_predicted : bool)
    (r : Scores * option (list R)) :
  score_model feat_df y model score_fn cv find_predicted = Ok r ->
  scorable y cv feat_df.
Proof.
  intros Hrun.
  destruct (Nat.eq_dec (index feat_df) (length y)) as [Hn|Hn].
  - split; [exact Hn|].
    destruct (Z.lt_ge_cases (effective_cv cv y) 2) as [Hlt|Hge].
    + exfalso.
      destruct (score_model_bad_folds feat_df y model score_fn cv find_predicted Hn)
        as [e [He _]]; [now left | congruence].
    + destruct (Z.lt_ge_cases (Z.of_nat (length y)) (effective_cv cv y)) as [Hlt|Hle];
        [|lia].
      exfalso.
      destruct (score_model_bad_folds feat_df y model score_fn cv find_predicted Hn)
        as [e [He _]]; [now right | congruence].
  - rewrite score_model_mismatch in Hrun by exact Hn. discriminate.
Qed.

(** [score_model] on inputs that can be scored, written out. *)
Lemma score_model_unfold (feat_df : DataFrame) (y : list R) (model : Estimator)
    (score_fn : option ScoreFn) (cv : option Z) (find_predicted : bool) :
  scorable y cv feat_df ->
  let folds := kfold_tests (length y) (Z.to_nat (effective_cv cv y)) in
  let X := to_numpy feat_df in
  let per_fold (scorer : ScoreFn) :=
    map (fun test => scorer (take 0 y test) (fold_predict model X y test)) folds in
  let predicted := concat (map (fold_predict model X y) folds) in
  score_model feat_df y model score_fn cv find_predicted
  = Ok ({| test_neg_RMSE := per_fold neg_rmse;
           test_user := option_map per_fold score_fn;
           R2_stacked := if find_predicted then Some (r2_score y predicted)
                         else None |},
        if find_predicted then Some predicted else None).
Proof.
  intros [Hn Hcv]. cbn zeta.
  unfold score_model, cross_validate, cross_val_predict.
  fold (effective_cv cv y).
  rewrite Hn, check_split_valid by exact Hcv.
  destruct find_predicted; reflexivity.
Qed.

(** X9.  Whenever [score_model] returns, it holds one negative-RMSE score
    per fold, none of them positive, and a user score per fold exactly when a
    score function was given.  With [find_predicted] it also returns one
    held-out prediction per row, in row order, and the R2 of these stacked
    predictions against the target; without it, neither. *)
Theorem score_model_outputs (feat_df : DataFrame) (y : list R) (model : Estimator)
    (score_fn : option ScoreFn) (cv : option Z) (find_predicted : bool)
    (scores : Scores) (predicted : option (list R)) :
  score_model feat_df y model score_fn cv find_predicted = Ok (scores, predicted) ->
  length (test_neg_RMSE scores) = Z.to_nat (effective_cv cv y)
  /\ Forall (fun v => v <= 0) (test_neg_RMSE scores)
  /\ match score_fn with
     | None => test_user scores = None
     | Some f => exists u, test_user scores = Some u
                           /\ length u = Z.to_nat (effective_cv cv y)
     end
  /\ if find_predicted
     then exists p, predicted = Some p
                    /\ length p = length y
                    /\ R2_stacked scores = Some (r2_score y p)
     else predicted = None /\ R2_stacked scores = None.
Proof.
  intros Hrun.
  pose proof (score_model_scorable _ _ _ _ _ _ _ Hrun) as Hsc.
  rewrite (score_model_unfold _ _ _ _ _ _ Hsc) in Hrun. cbn zeta in Hrun.
  injection Hrun as <- <-. cbn [test_neg_RMSE test_user R2_stacked].
  destruct Hsc as [Hn Hcv].
  repeat split.
  - now rewrite length_map, kfold_tests_count.
  - rewrite Forall_map. apply Forall_forall. intros test _. apply neg_rmse_nonpos.
  - destruct score_fn as [f|]; [|reflexivity].
    eexists. split; [reflexivity|]. now rewrite length_map, kfold_tests_count.
  - destruct find_predicted; [|split; reflexivity].
    eexists. split; [reflexivity|]. split; [|reflexivity].
    rewrite length_concat_map by (intros l; apply fold_predict_length).
    rewrite kfold_tests_cover by lia. apply length_seq.
Qed.

Lemma score_model_loo (feat_df : DataFrame) (y : list R) (model : Estimator)
    (score_fn : option ScoreFn) (cv : option Z) (find_predicted : bool)
    (scores : Scores) (predicted : option (list R)) :
  effective_cv cv y = Z.of_nat (length y) ->
  score_model feat_df y model score_fn cv find_predicted = Ok (scores, predicted) ->
  test_neg_RMSE scores
  = map (fun i => - Rabs (nth i y 0 - loo_prediction model feat_df y i))
        (seq 0 (length y))
  /\ (find_predicted = true ->
      predicted = Some (map (loo_prediction model feat_df y) (seq 0 (length y)))).
Proof.
  intros Hloo Hrun.
  pose proof (score_model_scorable _ _ _ _ _ _ _ Hrun) as Hsc.
  rewrite (score_model_unfold _ _ _ _ _ _ Hsc) in Hrun. cbn zeta in Hrun.
  injection Hrun as <- <-. cbn [test_neg_RMSE].
  destruct Hsc as [Hn Hcv].
  rewrite Hloo, Nat2Z.id, kfold_tests_loo by lia.
  rewrite !map_map.
  split.
  - apply map_ext. intros i. unfold fold_predict, loo_prediction. cbn [map take].
    apply neg_rmse_single.
  - intros ->. f_equal. unfold fold_predict, loo_prediction. cbn [map].
    clear. induction (seq 0 (length y)) as [|i l IH]; simpl; [reflexivity|].
    now rewrite IH.
Qed.

(** X10.  Under leave-one-out (the default fold count, or a fold count equal
    to the number of rows) every fold holds out one row and is fitted on all
    the others, so the per-fold score that [score_model] returns for row [i]
    is minus the absolute error of the prediction for that row, and the
    stacked predictions are those leave-one-out predictions. *)
Theorem leave_one_out_scores (feat_df : DataFrame) (y : list R) (model : Estimator)
    (score_fn : option ScoreFn) (cv : option Z) (find_predicted : bool)
    (scores : Scores) (predicted : option (list R)) :
  effective_cv cv y = Z.of_nat (length y) ->
  score_model feat_df y model score_fn cv find_predicted = Ok (scores, predicted) ->
  test_neg_RMSE scores
  = map (fun i => - Rabs (nth i y 0 - loo_prediction model feat_df y i))
        (seq 0 (length y))
  /\ (find_predicted = true ->
      predicted = Some (map (loo_prediction model feat_df y) (seq 0 (length y))))
  /\ forall i j, In j (train_of (length (to_numpy feat_df)) [i])
                 <-> (j < length y)%nat /\ j <> i.
Proof.
  intros Hloo Hrun.
  destruct (score_model_loo _ _ _ _ _ _ _ _ Hloo Hrun) as [Hscores Hpred].
  split; [exact Hscores | split; [exact Hpred|]].
  destruct (score_model_scorable _ _ _ _ _ _ _ Hrun) as [Hn _].
  intros i j. unfold to_numpy. rewrite length_map, length_seq, Hn.
  apply train_of_loo.
Qed.

(** X11.  The ['RMSE'] that [fit_agc_model.py] records for a leave-one-out
    evaluation (the mean of the absolute per-fold scores, over 1000) is the
    mean absolute leave-one-out error over 1000, not a root mean square. *)
Theorem reported_rmse_is_mean_absolute_error (feat_df : DataFrame) (y : list R)
    (model : Estimator) (score_fn : option ScoreFn) (cv : option Z)
    (find_predicted : bool) (scores : Scores) (predicted : option (list R)) :
  effective_cv cv y = Z.of_nat (length y) ->
  score_model feat_df y model score_fn cv find_predicted = Ok (scores, predicted) ->
  reported_rmse scores
  = np_mean (map (fun i => Rabs (nth i y 0 - loo_prediction model feat_df y i))
                 (seq 0 (length y))) / 1000.
Proof.
  intros Hloo Hrun.
  destruct (score_model_loo _ _ _ _ _ _ _ _ Hloo Hrun) as [Hscores _].
  unfold reported_rmse. rewrite Hscores, map_map.
  do 2 f_equal. apply map_ext. intros i.
  now rewrite Rabs_Ropp, Rabs_Rabsolu.
Qed.

(** ** fcr: the bound and the selected columns *)

Lemma iloc_columns_length (cols : list Column) (idx : list nat) (picked : list Column) :
  iloc_columns cols idx = Ok picked -> length picked = length idx.
Proof.
  intros H. apply iloc_columns_picks in H. symmetry. apply (Forall2_length H).
Qed.

Lemma iloc_columns_firstn (cols : list Column) (idx : list nat) (picked : list Column)
    (n : nat) :
  iloc_columns cols idx = Ok picked ->
  iloc_columns cols (firstn n idx) = Ok (firstn n picked).
Proof.
  revert idx picked.
  induction n as [|n IH]; intros idx picked H; [reflexivity|].
  destruct idx as [|i idx]; simpl in H |- *.
  - now injection H as <-.
  - destruct (nth_error cols i) as [c|]; [|discriminate].
    bind_inv H rest Hrest. injection H as <-.
    rewrite (IH _ _ Hrest). reflexivity.
Qed.

Lemma iloc_columns_slice (cols : list Column) (idx : list nat) (picked : list Column)
    (m : option Z) :
  iloc_columns cols idx = Ok picked ->
  iloc_columns cols (slice_to m idx) = Ok (slice_to m picked).
Proof.
  intros H. pose proof (iloc_columns_length _ _ _ H) as Hlen.
  destruct m as [k|]; simpl; [|exact H].
  rewrite Hlen. destruct (k <? 0)%Z; now apply iloc_columns_firstn.
Qed.

Lemma slice_to_length {A : Type} (m : option Z) (l : list A) :
  length (slice_to m l)
  = match m with
    | None => length l
    | Some k => if (k <? 0)%Z then (length l - Z.to_nat (- k))%nat
                else Nat.min (Z.to_nat k) (length l)
    end.
Proof.
  destruct m as [k|]; simpl; [|reflexivity].
  destruct (Z.ltb_spec k 0); rewrite length_firstn; lia.
Qed.

(** X12.  The bound of [fcr] only cuts its output: when [fcr] returns without
    a bound, it returns with any bound, and the result is the unbounded one
    sliced by [[:max_num_feats]], columns and scores alike.  So a bound of 0
    gives an empty selection, a bound beyond the number of clusters gives
    all of them, and a negative bound drops that many representatives from
    the weak end instead of raising. *)
Theorem fcr_bound_slices (ap : Clustering) (feat_df : DataFrame) (y : list R)
    (max_num_feats : option Z) (sel_all : DataFrame) (scores_all : list R) :
  fcr ap feat_df y None = Ok (sel_all, scores_all) ->
  fcr ap feat_df y max_num_feats
  = Ok ({| index := index feat_df;
           columns := slice_to max_num_feats (columns sel_all) |},
        slice_to max_num_feats scores_all)
  /\ length (slice_to max_num_feats scores_all)
     = match max_num_feats with
       | None => length scores_all
       | Some k => if (k <? 0)%Z then (length scores_all - Z.to_nat (- k))%nat
                   else Nat.min (Z.to_nat k) (length scores_all)
       end.
Proof.
  intros Hall. split; [|apply slice_to_length].
  destruct (fcr_inputs _ _ _ _ _ Hall) as (Hrows & Hcols & Hy).
  rewrite fcr_unfold in Hall |- * by assumption.
  bind_inv Hall loop_out Hloop. destruct loop_out as [selected cluster_scores].
  cbn zeta in Hall. bind_inv Hall picked Hpicked. injection Hall as <- <-.
  rewrite Hloop. cbn [bind]. cbn zeta.
  cbn [slice_to] in Hpicked.
  rewrite (iloc_columns_slice _ _ _ max_num_feats Hpicked).
  reflexivity.
Qed.

Lemma NoDup_firstn {A : Type} (n : nat) (l : list A) :
  NoDup l -> NoDup (firstn n l).
Proof.
  intros H. rewrite <- (firstn_skipn n l) in H.
  now apply NoDup_app_remove_r in H.
Qed.

Lemma NoDup_slice_to {A : Type} (m : option Z) (l : list A) :
  NoDup l -> NoDup (slice_to m l).
Proof.
  intros H. destruct m as [k|]; simpl; [|exact H].
  destruct (k <? 0)%Z; now apply NoDup_firstn.
Qed.

Lemma Forall2_in_right {A B : Type} (P : A -> B -> Prop) (l1 : list A)
    (l2 : list B) (b : B) :
  Forall2 P l1 l2 -> In b l2 -> exists a, In a l1 /\ P a b.
Proof.
  induction 1 as [|a0 b0 l1 l2 Hab _ IH]; simpl; intros Hin; [contradiction|].
  destruct Hin as [<- | Hin].
  - exists a0. auto.
  - destruct (IH Hin) as [a [Ha HP]]. exists a. auto.
Qed.

(** Columns picked at distinct positions of a table with distinct names
    have distinct names. *)
Lemma picked_keys_distinct (cols : list Column) (idx : list nat)
    (picked : list Column) :
  NoDup (map fst cols) ->
  NoDup idx ->
  Forall2 (fun i c => nth_error cols i = Some c) idx picked ->
  NoDup (map fst picked).
Proof.
  intros Hkeys Hidx Hpick.
  induction Hpick as [|i c idx picked Hc Hrest IH]; simpl; [constructor|].
  inversion Hidx as [|? ? Hnot Hidx']; subst.
  constructor; [|now apply IH].
  intros Hin. apply in_map_iff in Hin. destruct Hin as [c' [Hfst Hc']].
  destruct (Forall2_in_right _ _ _ _ Hrest Hc') as (i' & Hi' & Hnth).
  assert (Heq : i = i').
  { apply (proj1 (NoDup_nth_error (map fst cols)) Hkeys).
    - rewrite length_map. apply nth_error_Some.
      intros E. pose proof (eq_trans (eq_sym E) Hc) as X. discriminate X.
    - rewrite !nth_error_map.
      transitivity (Some (fst c)).
      + exact (f_equal (option_map fst) Hc).
      + rewrite <- Hfst. symmetry. exact (f_equal (option_map fst) Hnth). }
  subst i'. contradiction.
Qed.

Lemma fcr_index (ap : Clustering) (feat_df : DataFrame) (y : list R)
    (max_num_feats : option Z) (sel : DataFrame) (scores : list R) :
  fcr ap feat_df y max_num_feats = Ok (sel, scores) ->
  index sel = index feat_df.
Proof.
  intros Hrun.
  destruct (fcr_inputs _ _ _ _ _ Hrun) as (Hrows & Hcols & Hy).
  rewrite fcr_unfold in Hrun by assumption.
  bind_inv Hrun loop_out Hloop. destruct loop_out as [selected cluster_scores].
  cbn zeta in Hrun. bind_inv Hrun picked Hpicked. now injection Hrun as <- _.
Qed.

(** X13.  Whenever [fcr] returns, there is one score per selected column,
    every selected column is a column of the input with the input's rows,
    there are no more of them than clusters, and no feature is selected
    twice: on a table with distinct column names the selected names are
    distinct. *)
Theorem fcr_selects_distinct_columns (ap : Clustering) (feat_df : DataFrame)
    (y : list R) (max_num_feats : option Z) (sel : DataFrame) (scores : list R) :
  fcr ap feat_df y max_num_feats = Ok (sel, scores) ->
  length scores = shape1 sel
  /\ index sel = index feat_df
  /\ incl (columns sel) (columns feat_df)
  /\ (shape1 sel <= length (np_unique (fcr_labels ap feat_df)))%nat
  /\ (NoDup (column_keys feat_df) -> NoDup (column_keys sel)).
Proof.
  intros Hrun.
  pose proof (fcr_index _ _ _ _ _ _ Hrun) as Hindex.
  destruct (fcr_ranked_picks _ _ _ _ _ _ Hrun)
    as (ranked & Hperm & Hrep & _ & Hcols & Hscores).
  pose proof (iloc_columns_length _ _ _ Hcols) as Hlen.
  apply iloc_columns_picks in Hcols.
  assert (Hcount : length ranked = length (np_unique (fcr_labels ap feat_df))).
  { rewrite <- (Permutation_length Hperm). now rewrite length_map. }
  unfold shape1.
  split; [|split; [exact Hindex | split; [|split]]].
  - rewrite Hscores, Hlen, !slice_to_length, !length_map. reflexivity.
  - intros c Hc.
    destruct (Forall2_in_right _ _ _ _ Hcols Hc) as (i & _ & Hi).
    now apply nth_error_In in Hi.
  - rewrite Hlen, slice_to_length, length_map, <- Hcount.
    destruct max_num_feats as [k|]; [destruct (k <? 0)%Z|]; lia.
  - intros Hkeys. unfold column_keys in *.
    apply (picked_keys_distinct _ _ _ Hkeys) in Hcols; [exact Hcols|].
    apply NoDup_slice_to.
    assert (Hlabels : NoDup (map pick_label ranked)).
    { apply (Permutation_NoDup (Permutation_sym Hperm)), np_unique_distinct. }
    assert (Hmap : map pick_label ranked
                   = map (fun i => nth i (fcr_labels ap feat_df) 0%Z)
                         (map pick_position ranked)).
    { rewrite map_map. apply map_ext_in. intros t Ht.
      rewrite Forall_forall in Hrep. destruct (Hrep t Ht) as (_ & Hl & _).
      now rewrite Hl. }
    rewrite Hmap in Hlabels. now apply NoDup_map_inv in Hlabels.
Qed.

(** ** The further properties on concrete inputs *)

Lemma abc_select_all :
  exists sel scores,
    forward_selection y_abc zero_regressor None (Some 5%Z) abc_frame 0
    = Done (Ok (sel, scores)).
Proof.
  apply forward_selection_returns.
  - apply (abc_scorable (Some 5%Z)). now right.
  - apply abc_well_formed.
  - apply abc_keys_distinct.
  - unfold effective_max, shape1. simpl. lia.
Qed.

Lemma forward_selection_scores_prefixes_witness :
  scores_of_prefixes y_abc zero_regressor None (Some 5%Z)
    {| index := 5;
       columns := [("A"%string, [1; 2; 3; 4; 5]); ("B"%string, [5; 4; 3; 2; 1])] |}
    [Fin (- sqrt 11); Fin (- sqrt 11)].
Proof.
  apply (forward_selection_scores_prefixes y_abc zero_regressor None (Some 5%Z)
           abc_frame 2 _ _ run_on_abc).
Defined.

Lemma forward_selection_rearranges_witness :
  exists sel scores,
    forward_selection y_abc zero_regressor None (Some 5%Z) abc_frame 0
    = Done (Ok (sel, scores))
    /\ (exists remaining, Permutation (columns sel ++ remaining) (columns abc_frame))
    /\ (0%Z = 0%Z -> Permutation (columns sel) (columns abc_frame)).
Proof.
  destruct abc_select_all as [sel [scores Hrun]].
  exists sel, scores. split; [exact Hrun|].
  apply (forward_selection_rearranges y_abc zero_regressor None (Some 5%Z)
           abc_frame 0 sel scores abc_keys_distinct Hrun).
Defined.

Lemma forward_selection_bound_prefix_witness :
  exists sel2 scores2,
    forward_selection y_abc zero_regressor None (Some 5%Z) abc_frame 0
    = Done (Ok (sel2, scores2))
    /\ [("A"%string, [1; 2; 3; 4; 5]); ("B"%string, [5; 4; 3; 2; 1])]
       = firstn 2 (columns sel2)
    /\ [Fin (- sqrt 11); Fin (- sqrt 11)] = firstn 2 scores2.
Proof.
  destruct abc_select_all as [sel2 [scores2 Hrun]].
  exists sel2, scores2. split; [exact Hrun|].
  assert (Hm : (effective_max abc_frame 2 <= effective_max abc_frame 0)%Z)
    by (unfold effective_max, shape1; simpl; lia).
  exact (forward_selection_bound_prefix y_abc zero_regressor None (Some 5%Z)
           abc_frame 2 0 _ _ sel2 scores2 Hm run_on_abc Hrun).
Defined.

Lemma first_selected_is_top_ranked_witness :
  exists rscores i c s,
    ranking y_abc zero_regressor None (Some 5%Z) abc_frame = Ok rscores
    /\ nth_error (columns abc_frame) i = Some c
    /\ nth_error rscores i = Some s
    /\ np_max rscores = Ok s
    /\ (forall j r, (j < i)%nat -> nth_error rscores j = Some r -> r < s)
    /\ nth_error [("A"%string, [1; 2; 3; 4; 5]); ("B"%string, [5; 4; 3; 2; 1])] 0
       = Some c
    /\ nth_error [Fin (- sqrt 11); Fin (- sqrt 11)] 0 = Some (Fin s).
Proof.
  destruct (ranking_returns y_abc zero_regressor None (Some 5%Z) abc_frame)
    as [rscores Hrank].
  - apply (abc_scorable (Some 5%Z)). now right.
  - discriminate.
  - destruct (first_selected_is_top_ranked y_abc zero_regressor None (Some 5%Z)
                abc_frame 2 rscores _ _ Hrank run_on_abc) as (i & c & s & H).
    exists rscores, i, c, s. split; [exact Hrank | exact H].
Defined.

Lemma twin_frame_names_repeat : ~ NoDup (column_keys twin_frame).
Proof.
  unfold column_keys. simpl. intros H.
  inversion H as [|? ? Hnot _]; subst. apply Hnot. now left.
Qed.

Lemma forward_selection_twin_names_witness :
  forward_selection y_line zero_regressor None None twin_frame 0
  = Done (Raise IndexOutOfBounds).
Proof.
  apply (forward_selection_twin_names y_line zero_regressor None None twin_frame 0).
  - split; [reflexivity | simpl; lia].
  - repeat constructor.
  - apply twin_frame_names_repeat.
  - unfold effective_max, shape1. simpl. lia.
Defined.

Lemma default_score_sign_witness :
  - sqrt (9 / 2) <= 0
  /\ (- sqrt (9 / 2) = 0 <->
      Forall (fun e => e = 0)
             (held_out_sq_errors zero_regressor one_feature_frame y_skew
                (kfold_tests (length y_skew)
                             (Z.to_nat (effective_cv (Some 2%Z) y_skew))))).
Proof.
  apply (default_score_sign y_skew zero_regressor (Some 2%Z) one_feature_frame _
           skew_trial_score).
Defined.

Lemma skew_score_model_returns :
  exists scores predicted,
    score_model one_feature_frame y_skew zero_regressor None None true
    = Ok (scores, predicted).
Proof.
  destruct (score_model_returns one_feature_frame y_skew zero_regressor None None true)
    as (scores & predicted & Hrun & _).
  - split; [reflexivity | simpl; lia].
  - now exists scores, predicted.
Qed.

Lemma score_model_outputs_witness :
  exists scores predicted,
    score_model one_feature_frame y_skew zero_regressor None None true
    = Ok (scores, predicted)
    /\ length (test_neg_RMSE scores) = 3%nat
    /\ Forall (fun v => v <= 0) (test_neg_RMSE scores)
    /\ test_user scores = None
    /\ exists p, predicted = Some p
                 /\ length p = length y_skew
                 /\ R2_stacked scores = Some (r2_score y_skew p).
Proof.
  destruct skew_score_model_returns as (scores & predicted & Hrun).
  exists scores, predicted. split; [exact Hrun|].
  apply (score_model_outputs one_feature_frame y_skew zero_regressor None None true
           scores predicted Hrun).
Defined.

Lemma leave_one_out_scores_witness :
  exists scores predicted,
    score_model one_feature_frame y_skew zero_regressor None None true
    = Ok (scores, predicted)
    /\ test_neg_RMSE scores
       = map (fun i => - Rabs (nth i y_skew 0
                               - loo_prediction zero_regressor one_feature_frame
                                                y_skew i))
             (seq 0 (length y_skew))
    /\ (true = true ->
        predicted = Some (map (loo_prediction zero_regressor one_feature_frame y_skew)
                              (seq 0 (length y_skew))))
    /\ forall i j, In j (train_of (length (to_numpy one_feature_frame)) [i])
                   <-> (j < length y_skew)%nat /\ j <> i.
Proof.
  destruct skew_score_model_returns as (scores & predicted & Hrun).
  exists scores, predicted. split; [exact Hrun|].
  apply (leave_one_out_scores one_feature_frame y_skew zero_regressor None None true
           scores predicted eq_refl Hrun).
Defined.

Lemma reported_rmse_is_mean_absolute_error_witness :
  exists scores predicted,
    score_model one_feature_frame y_skew zero_regressor None None true
    = Ok (scores, predicted)
    /\ reported_rmse scores
       = np_mean (map (fun i => Rabs (nth i y_skew 0
                                      - loo_prediction zero_regressor
                                          one_feature_frame y_skew i))
                      (seq 0 (length y_skew))) / 1000.
Proof.
  destruct skew_score_model_returns as (scores & predicted & Hrun).
  exists scores, predicted. split; [exact Hrun|].
  apply (reported_rmse_is_mean_absolute_error one_feature_frame y_skew zero_regressor
           None None true scores predicted eq_refl Hrun).
Defined.

Lemma abc_fcr_returns :
  exists sel scores, fcr singletons abc_frame y_abc None = Ok (sel, scores).
Proof.
  destruct (fcr_returns singletons abc_frame y_abc None) as [[sel scores] Hrun];
    [discriminate | discriminate | apply abc_well_formed | reflexivity
    | apply singletons_label_count |].
  now exists sel, scores.
Qed.

Lemma fcr_bound_slices_witness :
  exists sel_all scores_all,
    fcr singletons abc_frame y_abc None = Ok (sel_all, scores_all)
    /\ fcr singletons abc_frame y_abc (Some (-1)%Z)
       = Ok ({| index := index abc_frame;
                columns := slice_to (Some (-1)%Z) (columns sel_all) |},
             slice_to (Some (-1)%Z) scores_all)
    /\ length (slice_to (Some (-1)%Z) scores_all) = (length scores_all - 1)%nat.
Proof.
  destruct abc_fcr_returns as (sel & scores & Hrun).
  exists sel, scores. split; [exact Hrun|].
  apply (fcr_bound_slices singletons abc_frame y_abc (Some (-1)%Z) sel scores Hrun).
Defined.

Lemma fcr_selects_distinct_columns_witness :
  exists sel scores,
    fcr singletons abc_frame y_abc None = Ok (sel, scores)
    /\ length scores = shape1 sel
    /\ index sel = index abc_frame
    /\ incl (columns sel) (columns abc_frame)
    /\ (shape1 sel <= length (np_unique (fcr_labels singletons abc_frame)))%nat
    /\ (NoDup (column_keys abc_frame) -> NoDup (column_keys sel)).
Proof.
  destruct abc_fcr_returns as (sel & scores & Hrun).
  exists sel, scores. split; [exact Hrun|].
  apply (fcr_selects_distinct_columns singletons abc_frame y_abc None sel scores Hrun).
Defined.
